(** * Unit-Convertor: the conversion engine and the session history

    A shallow embedding of [utils.py] (the unit catalog, the factor table and
    [convert_unit]) and of the part of [app.py] that drives it
    ([update_result] and the session's conversion history).

    Python's [float] is IEEE-754 binary64 with round-to-nearest-even, which
    is what Rocq's primitive [float] implements: every arithmetic operation
    of the source is embedded as the same operation on [float], in the order
    Python's grammar gives it ([a * b / c] is [(a * b) / c]).  Decimal
    literals denote the nearest binary64 value in both languages. *)

From Stdlib Require Import Floats ZArith Lia Reals Lra Ascii.
From stdpp Require Import gmap strings list fin_maps.

Set Warnings "-inexact-float".
Open Scope string_scope.
Open Scope nat_scope.

(** ** The unit catalog ([utils.py], lines 7-150) *)

(** One value of the [CONVERSION_CATEGORIES] dictionary. *)
Record Category := {
  units : list string;
  symbol : string;
  color : string
}.

(** The dictionary literal, in source order. *)
Definition CONVERSION_CATEGORIES_items : list (string * Category) := [
  ("Length",
   {| units := ["meter"; "kilometer"; "centimeter"; "millimeter"; "mile";
                "yard"; "foot"; "inch"];
      symbol := "📏"; color := "#FF5757" |});
  ("Mass",
   {| units := ["gram"; "kilogram"; "milligram"; "pound"; "ounce"; "ton"];
      symbol := "⚖️"; color := "#4CAF50" |});
  ("Volume",
   {| units := ["liter"; "milliliter"; "cubic_meter"; "gallon"; "quart";
                "pint"; "cup"; "fluid_ounce"];
      symbol := "🧪"; color := "#2196F3" |});
  ("Temperature",
   {| units := ["kelvin"; "celsius"; "fahrenheit"];
      symbol := "🌡️"; color := "#FF9800" |});
  ("Time",
   {| units := ["second"; "minute"; "hour"; "day"; "week"; "month"; "year"];
      symbol := "⏱️"; color := "#9C27B0" |});
  ("Speed",
   {| units := ["meter_per_second"; "kilometer_per_hour"; "mile_per_hour";
                "knot"];
      symbol := "🚀"; color := "#607D8B" |});
  ("Area",
   {| units := ["square_meter"; "square_kilometer"; "hectare"; "acre";
                "square_foot"; "square_inch"];
      symbol := "📐"; color := "#795548" |});
  ("Data",
   {| units := ["bit"; "byte"; "kilobyte"; "megabyte"; "gigabyte";
                "terabyte"];
      symbol := "💾"; color := "#00BCD4" |});
  ("Energy",
   {| units := ["joule"; "kilojoule"; "calorie"; "kilocalorie"; "watt_hour";
                "kilowatt_hour"];
      symbol := "⚡"; color := "#FFEB3B" |});
  ("Pressure",
   {| units := ["pascal"; "kilopascal"; "bar"; "atmosphere"; "psi"];
      symbol := "🔄"; color := "#3F51B5" |})
].

Definition CONVERSION_CATEGORIES : gmap string Category :=
  list_to_map CONVERSION_CATEGORIES_items.

(** The factor dictionary literal, in source order. *)
Definition CONVERSION_FACTORS_items : list (string * float) := [
  (* Length (base: meter) *)
  ("meter", 1.0); ("kilometer", 1000.0); ("centimeter", 0.01);
  ("millimeter", 0.001); ("mile", 1609.344); ("yard", 0.9144);
  ("foot", 0.3048); ("inch", 0.0254);
  (* Mass (base: gram) *)
  ("gram", 1.0); ("kilogram", 1000.0); ("milligram", 0.001);
  ("pound", 453.59237); ("ounce", 28.349523125); ("ton", 1000000.0);
  (* Volume (base: liter) *)
  ("liter", 1.0); ("milliliter", 0.001); ("cubic_meter", 1000.0);
  ("gallon", 3.78541178); ("quart", 0.946352946); ("pint", 0.473176473);
  ("cup", 0.2365882365); ("fluid_ounce", 0.0295735296875);
  (* Time (base: second) *)
  ("second", 1.0); ("minute", 60.0); ("hour", 3600.0); ("day", 86400.0);
  ("week", 604800.0); ("month", 2592000.0); ("year", 31536000.0);
  (* Speed (base: meter_per_second) *)
  ("meter_per_second", 1.0); ("kilometer_per_hour", 0.277778);
  ("mile_per_hour", 0.44704); ("knot", 0.514444);
  (* Area (base: square_meter) *)
  ("square_meter", 1.0); ("square_kilometer", 1000000.0);
  ("hectare", 10000.0); ("acre", 4046.8564224); ("square_foot", 0.09290304);
  ("square_inch", 0.00064516);
  (* Data (base: byte) *)
  ("bit", 0.125); ("byte", 1.0); ("kilobyte", 1024.0);
  ("megabyte", 1048576.0); ("gigabyte", 1073741824.0);
  ("terabyte", 1099511627776.0);
  (* Energy (base: joule) *)
  ("joule", 1.0); ("kilojoule", 1000.0); ("calorie", 4.184);
  ("kilocalorie", 4184.0); ("watt_hour", 3600.0);
  ("kilowatt_hour", 3600000.0);
  (* Pressure (base: pascal) *)
  ("pascal", 1.0); ("kilopascal", 1000.0); ("bar", 100000.0);
  ("atmosphere", 101325.0); ("psi", 6894.76)
]%float.

Definition CONVERSION_FACTORS : gmap string float :=
  list_to_map CONVERSION_FACTORS_items.

(** [None] is Python's [None], the Temperature special case. *)
Definition CATEGORY_BASE_UNITS_items : list (string * option string) := [
  ("Length", Some "meter"); ("Mass", Some "gram"); ("Volume", Some "liter");
  ("Temperature", None); ("Time", Some "second");
  ("Speed", Some "meter_per_second"); ("Area", Some "square_meter");
  ("Data", Some "byte"); ("Energy", Some "joule");
  ("Pressure", Some "pascal")
].

Definition CATEGORY_BASE_UNITS : gmap string (option string) :=
  list_to_map CATEGORY_BASE_UNITS_items.

(** ** Python exceptions, Streamlit's state, and the monad threading them *)

Inductive exn :=
  | KeyError (key : string)
  | ZeroDivisionError
  | ValueError.

(** What [st.error] shows, one constructor per f-string of the source;
    the argument is the exception that [str(e)] formats. *)
Inductive st_message :=
  | Conversion_error (e : exn)
  | Invalid_input (e : exn)
  | Key_error (e : exn)
  | Error_updating_result (e : exn).

(** One dictionary appended to [st.session_state.conversion_history]. *)
Module History.

Record entry := {
  timestamp : string;
  category : string;
  from_value : float;
  from_unit : string;
  to_value : float;
  to_unit : string
}.

End History.

(** [st.session_state], as [app.py] initialises it at lines 34-49 (the
    [animation_loaded] cache is never read by the modelled code). *)
Record SessionState := {
  current_category : string;
  input_value : float;
  from_unit : string;
  to_unit : string;
  result : float;
  conversion_history : list History.entry;
  theme : string
}.

Definition set_result (r : float) (ss : SessionState) : SessionState :=
  {| current_category := current_category ss; input_value := input_value ss;
     from_unit := from_unit ss; to_unit := to_unit ss; result := r;
     conversion_history := conversion_history ss; theme := theme ss |}.

Definition set_conversion_history (h : list History.entry)
    (ss : SessionState) : SessionState :=
  {| current_category := current_category ss; input_value := input_value ss;
     from_unit := from_unit ss; to_unit := to_unit ss; result := result ss;
     conversion_history := h; theme := theme ss |}.

(** The [st] module as the code sees it: the session state and the error
    boxes shown so far, oldest first. *)
Record Streamlit := {
  session_state : SessionState;
  errors : list st_message
}.

Inductive outcome (A : Type) :=
  | Return (a : A)
  | Raise (e : exn).
Arguments Return {A} a.
Arguments Raise {A} e.

(** A Python computation: it reads and mutates [st], and either returns or
    raises. *)
Definition Py (A : Type) : Type := Streamlit → outcome A * Streamlit.

#[global] Instance Py_ret : MRet Py := λ A a st, (Return a, st).

#[global] Instance Py_bind : MBind Py := λ A B f m st,
  match m st with
  | (Return a, st') => f a st'
  | (Raise e, st') => (Raise e, st')
  end.

Definition raise {A : Type} (e : exn) : Py A := λ st, (Raise e, st).

(** [try: body except Exception as e: handler e]. *)
Definition try_except {A : Type} (body : Py A) (handler : exn → Py A) : Py A :=
  λ st,
    match body st with
    | (Return a, st') => (Return a, st')
    | (Raise e, st') => handler e st'
    end.

Definition st_error (msg : st_message) : Py unit := λ st,
  (Return tt, {| session_state := session_state st;
                 errors := errors st ++ [msg] |}).

Definition get_session_state : Py SessionState := λ st,
  (Return (session_state st), st).

Definition modify_session_state (f : SessionState → SessionState) : Py unit :=
  λ st, (Return tt, {| session_state := f (session_state st);
                       errors := errors st |}).

(** [d[key]] on a dictionary. *)
Definition getitem {V : Type} (d : gmap string V) (key : string) : Py V :=
  match d !! key with
  | Some v => mret v
  | None => raise (KeyError key)
  end.

(** [x / y] on floats: Python raises on a zero divisor (of either sign)
    instead of returning an infinity or a NaN. *)
Definition truediv (x y : float) : Py float :=
  if PrimFloat.is_zero y then raise ZeroDivisionError else mret (x / y)%float.

(** [float(x)] where [x] is already a float. *)
Definition py_float (x : float) : Py float := mret x.

(** [l[-n:]]: the last [n] elements, the whole list when it is shorter. *)
Definition slice_last {A : Type} (n : nat) (l : list A) : list A :=
  drop (length l - n) l.

(** ** [convert_unit] ([utils.py], lines 172-213) *)

Definition temperature_units : list string :=
  ["celsius"; "fahrenheit"; "kelvin"].

(** Lines 187-201, the body of the temperature [if]. *)
Definition temperature_path (value : float) (from_unit to_unit : string)
    : Py float :=
  kelvin_value ←
    (if String.eqb from_unit "celsius" then
       mret (value + 273.15)%float
     else if String.eqb from_unit "fahrenheit" then
       q ← truediv ((value - 32) * 5)%float 9%float;
       mret (q + 273.15)%float
     else
       mret value);
  if String.eqb to_unit "celsius" then
    mret (kelvin_value - 273.15)%float
  else if String.eqb to_unit "fahrenheit" then
    q ← truediv ((kelvin_value - 273.15) * 9)%float 5%float;
    mret (q + 32)%float
  else
    mret kelvin_value.

(** Lines 203-210, the factor path. *)
Definition linear_path (value : float) (from_unit to_unit : string)
    : Py float :=
  f_from ← getitem CONVERSION_FACTORS from_unit;
  let base_value := (value * f_from)%float in
  f_to ← getitem CONVERSION_FACTORS to_unit;
  result ← truediv base_value f_to;
  mret result.

(** The body of the [try]. *)
Definition convert_unit_try (value : float) (from_unit to_unit : string)
    : Py float :=
  if bool_decide (from_unit ∈ temperature_units)
     && bool_decide (to_unit ∈ temperature_units)
  then temperature_path value from_unit to_unit
  else linear_path value from_unit to_unit.

Definition convert_unit (value : float) (from_unit to_unit : string)
    : Py float :=
  try_except (convert_unit_try value from_unit to_unit)
    (λ e, st_error (Conversion_error e);; mret 0.0%float).

(** ** [update_result] ([app.py], lines 52-86)

    [now] is what [time.strftime] returns during the call. *)

Definition update_result_try (now : string) : Py unit :=
  ss ← get_session_state;
  value ← py_float (input_value ss);
  let from_unit := from_unit ss in
  let to_unit := to_unit ss in
  result ← convert_unit value from_unit to_unit;
  modify_session_state (set_result result);;
  let timestamp := now in
  ss ← get_session_state;
  modify_session_state
    (set_conversion_history
       (conversion_history ss ++
        [ {| History.timestamp := timestamp;
             History.category := current_category ss;
             History.from_value := value;
             History.from_unit := from_unit;
             History.to_value := result;
             History.to_unit := to_unit |} ]));;
  ss ← get_session_state;
  if (10 <? length (conversion_history ss))%nat then
    modify_session_state
      (set_conversion_history (slice_last 10 (conversion_history ss)))
  else
    mret tt.

Definition update_result (now : string) : Py unit :=
  try_except (update_result_try now)
    (λ e, match e with
          | ValueError => st_error (Invalid_input e)
          | KeyError _ => st_error (Key_error e)
          | _ => st_error (Error_updating_result e)
          end).

(** * Definitions used by the statements *)

(** ** Sessions *)

(** The session as [app.py] initialises it. *)
Definition initial_session_state : SessionState :=
  {| current_category := "Length"; input_value := 1.0; from_unit := "meter";
     to_unit := "kilometer"; result := 0.001; conversion_history := [];
     theme := "light" |}.

Definition initial_st : Streamlit :=
  {| session_state := initial_session_state; errors := [] |}.

(** ** Factors, units and the two paths *)

(** What the division of the factor path needs of a factor. *)
Definition positive_factor (f : float) : Prop :=
  (0 <? f)%float = true ∧ PrimFloat.is_finite f = true
  ∧ PrimFloat.is_zero f = false.

Inductive temperature_unit := celsius | fahrenheit | kelvin.

Definition unit_name (u : temperature_unit) : string :=
  match u with
  | celsius => "celsius"
  | fahrenheit => "fahrenheit"
  | kelvin => "kelvin"
  end.

(** The normalization to kelvin as the specification words it; [× 5/9] is
    read as the source text [* 5/9] is, a product divided by 9. *)
Definition spec_normalize (u : temperature_unit) (value : float) : float :=
  match u with
  | celsius => value + 273.15
  | fahrenheit => (value - 32) * 5 / 9 + 273.15
  | kelvin => value
  end%float.

(** The denormalization from kelvin as the specification words it. *)
Definition spec_denormalize (u : temperature_unit) (k : float) : float :=
  match u with
  | celsius => k - 273.15
  | fahrenheit => (k - 273.15) * 9 / 5 + 32
  | kelvin => k
  end%float.

(** Python's [m == x] for a call [m] that returns without touching [st]. *)
Definition returns_equal (m : Py float) (st : Streamlit) (x : float) : Prop :=
  ∃ r, m st = (Return r, st) ∧ (r =? x)%float = true.

(** A unit listed by some category of [CONVERSION_CATEGORIES]. *)
Definition catalog_unit (u : string) : Prop :=
  ∃ name c, CONVERSION_CATEGORIES !! name = Some c ∧ u ∈ units c.

(** All of them, category by category. *)
Definition catalog_units : list string :=
  mjoin ((units ∘ snd) <$> CONVERSION_CATEGORIES_items).

(** [st] after [st.error(msg)]. *)
Definition show_error (msg : st_message) (st : Streamlit) : Streamlit :=
  {| session_state := session_state st; errors := errors st ++ [msg] |}.

(** The key on which the factor path raises, if any: the source unit is
    looked up first. *)
Definition missing_key (from_unit to_unit : string) : option string :=
  match CONVERSION_FACTORS !! from_unit with
  | None => Some from_unit
  | Some _ =>
      match CONVERSION_FACTORS !! to_unit with
      | None => Some to_unit
      | Some _ => None
      end
  end.

(** Exactly one of the two units is a temperature unit. *)
Definition mixed_pair (from_unit to_unit : string) : Prop :=
  (from_unit ∈ temperature_units ∧ to_unit ∉ temperature_units)
  ∨ ((from_unit ∉ temperature_units) ∧ (to_unit ∈ temperature_units)).

(** [st] after running [m]. *)
Definition exec {A : Type} (m : Py A) (st : Streamlit) : Streamlit := (m st).2.

Definition history (st : Streamlit) : list History.entry :=
  conversion_history (session_state st).

(** The float [convert_unit] hands back ([0.0] after a caught exception). *)
Definition convert_unit_value (value : float) (from_unit to_unit : string)
    : float :=
  match (convert_unit_try value from_unit to_unit initial_st).1 with
  | Return r => r
  | Raise _ => 0%float
  end.

(** The dictionary that [update_result] builds at lines 69-76. *)
Definition recorded_entry (now : string) (ss : SessionState) : History.entry :=
  {| History.timestamp := now;
     History.category := current_category ss;
     History.from_value := input_value ss;
     History.from_unit := from_unit ss;
     History.to_value :=
       convert_unit_value (input_value ss) (from_unit ss) (to_unit ss);
     History.to_unit := to_unit ss |}.

(** A user action: the widgets store the inputs in the session, then
    [update_result] runs at time [at_time]. *)
Record Action := {
  at_time : string;
  chosen_category : string;
  entered_value : float;
  chosen_from : string;
  chosen_to : string
}.

Definition store_inputs (a : Action) (st : Streamlit) : Streamlit :=
  {| session_state :=
       {| current_category := chosen_category a;
          input_value := entered_value a;
          from_unit := chosen_from a;
          to_unit := chosen_to a;
          result := result (session_state st);
          conversion_history := conversion_history (session_state st);
          theme := theme (session_state st) |};
     errors := errors st |}.

Definition perform (st : Streamlit) (a : Action) : Streamlit :=
  exec (update_result (at_time a)) (store_inputs a st).

Definition action_entry (a : Action) : History.entry :=
  {| History.timestamp := at_time a;
     History.category := chosen_category a;
     History.from_value := entered_value a;
     History.from_unit := chosen_from a;
     History.to_value :=
       convert_unit_value (entered_value a) (chosen_from a) (chosen_to a);
     History.to_unit := chosen_to a |}.

(** Fifteen conversions of 1, 2, ..., 15 metres to kilometres. *)
Definition fifteen_actions : list Action :=
  (λ n, {| at_time := "2023-01-01 00:00:00"; chosen_category := "Length";
           entered_value := PrimFloat.of_uint63 (Uint63.of_Z (Z.of_nat n));
           chosen_from := "meter"; chosen_to := "kilometer" |})
  <$> seq 1 15.

(** ** Binary64 values as real numbers

    [Prim2SF] decodes a primitive float into sign, mantissa and exponent;
    the definitions below give it its real value and name the classes of
    floats the error analysis distinguishes. *)

(** [2^e]. *)
Definition bpow (e : Z) : R := powerRZ 2 e.
Arguments bpow : simpl never.

Definition sign_of (s : bool) : R := if s then (-1)%R else 1%R.

(** The real number a decoded float stands for (0 for infinities and NaN,
    which [SFfinite] sets apart). *)
Definition SF2R (x : spec_float) : R :=
  match x with
  | S754_finite s m e => ((if s then -1 else 1) * IZR (Z.pos m) * bpow e)%R
  | _ => 0%R
  end.

Definition B2R (x : float) : R := SF2R (Prim2SF x).

(** Neither an infinity nor a NaN. *)
Definition SFfinite (x : spec_float) : bool :=
  match x with
  | S754_zero _ | S754_finite _ _ _ => true
  | _ => false
  end.

Definition finite (x : float) : Prop := SFfinite (Prim2SF x) = true.

Definition zero (x : float) : Prop := ∃ s, Prim2SF x = S754_zero s.

(** A finite float with a full 53-bit mantissa and exponent [e]. *)
Definition normal_sf (x : spec_float) (e : Z) : Prop :=
  ∃ s m, x = S754_finite s m e ∧ Z.pos (digits2_pos m) = 53%Z.

Definition normal (x : float) (e : Z) : Prop := normal_sf (Prim2SF x) e.

(** The decoding of [1.0]. *)
Definition SFone64 : spec_float := S754_finite false 4503599627370496 (-52).

(** The record that the rounding of [SpecFloat] shifts right stands for the
    real [v]: [shr_m] is its integer part and the round and sticky bits
    place [v] against the midpoint of [shr_m] and [shr_m + 1]. *)
Definition represents (r : shr_record) (v : R) : Prop :=
  (0 <= shr_m r)%Z ∧
  match shr_r r, shr_s r with
  | false, false => v = IZR (shr_m r)
  | false, true => (IZR (shr_m r) < v < IZR (shr_m r) + / 2)%R
  | true, false => v = (IZR (shr_m r) + / 2)%R
  | true, true => (IZR (shr_m r) + / 2 < v < IZR (shr_m r) + 1)%R
  end.

(** [x == 0 or 2**-900 <= abs(x) <= 2**900], as Python would test it: the
    doubles on which no operation of a conversion overflows or underflows. *)
Definition in_range (x : float) : bool :=
  (PrimFloat.is_zero x
   || ((0x1p-900 <=? abs x) && (abs x <=? 0x1p+900)))%float.

(** [y] is finite and [|y - x| <= tol * |x|]. *)
Definition within_tolerance (tol : R) (y x : float) : Prop :=
  finite y ∧ (Rabs (B2R y - B2R x) <= tol * Rabs (B2R x))%R.

(** A factor is a positive normal double between [2^-11] and [2^41]. *)
Definition factor_in_range (f : float) : bool :=
  match Prim2SF f with
  | S754_finite false m e =>
      (Z.pos (digits2_pos m) =? 53)%Z && (-63 <=? e)%Z && (e <=? -12)%Z
  | _ => false
  end.

(** Two units listed by one category of [CONVERSION_CATEGORIES]. *)
Definition same_category (u v : string) : Prop :=
  ∃ name c, CONVERSION_CATEGORIES !! name = Some c
            ∧ u ∈ units c ∧ v ∈ units c.

(** * The rest of [utils.py] and the handlers of [app.py] *)

(** ** [get_display_name] ([utils.py], lines 258-269)

    Python strings are embedded as strings of bytes, which is what they
    are when they hold ASCII text only: the statements about
    [get_display_name] are about such strings ([ascii_only]). *)

Definition is_upper (c : Ascii.ascii) : bool :=
  (65 <=? Ascii.nat_of_ascii c) && (Ascii.nat_of_ascii c <=? 90).

Definition is_lower (c : Ascii.ascii) : bool :=
  (97 <=? Ascii.nat_of_ascii c) && (Ascii.nat_of_ascii c <=? 122).

(** [c.isupper() or c.islower()] on an ASCII character. *)
Definition is_cased (c : Ascii.ascii) : bool := is_upper c || is_lower c.

Definition to_upper (c : Ascii.ascii) : Ascii.ascii :=
  if is_lower c then Ascii.ascii_of_nat (Ascii.nat_of_ascii c - 32) else c.

Definition to_lower (c : Ascii.ascii) : Ascii.ascii :=
  if is_upper c then Ascii.ascii_of_nat (Ascii.nat_of_ascii c + 32) else c.

Definition ascii_only (s : string) : Prop :=
  Forall (λ c, Ascii.nat_of_ascii c < 128) (String.list_ascii_of_string s).

(** [s.replace(old, new)] for one-character [old] and [new]. *)
Fixpoint str_replace (old new : Ascii.ascii) (s : string) : string :=
  match s with
  | EmptyString => EmptyString
  | String c s' =>
      String (if Ascii.eqb c old then new else c) (str_replace old new s')
  end.

(** The loop of [str.title]: a character that follows a cased one is
    lowercased, any other is titlecased, which in ASCII is uppercased. *)
Fixpoint title_from (previous_is_cased : bool) (s : string) : string :=
  match s with
  | EmptyString => EmptyString
  | String c s' =>
      String (if previous_is_cased then to_lower c else to_upper c)
        (title_from (is_cased c) s')
  end.

Definition str_title (s : string) : string := title_from false s.

Definition get_display_name (unit : string) : string :=
  str_title (str_replace "_"%char " "%char unit).

(** ** [get_animation_url] ([utils.py], lines 272-296) *)

Definition animations_items : list (string * string) := [
  ("Length", "https://assets5.lottiefiles.com/packages/lf20_ksahd5rx.json");
  ("Mass", "https://assets5.lottiefiles.com/private_files/lf30_nojtukcf.json");
  ("Volume", "https://assets9.lottiefiles.com/packages/lf20_jqfghjd8.json");
  ("Temperature",
   "https://assets3.lottiefiles.com/packages/lf20_qvk8qrqj.json");
  ("Time", "https://assets1.lottiefiles.com/packages/lf20_ysas4vcp.json");
  ("Speed", "https://assets9.lottiefiles.com/packages/lf20_qdbb21wb.json");
  ("Area", "https://assets5.lottiefiles.com/packages/lf20_kcsr6fcp.json");
  ("Data", "https://assets1.lottiefiles.com/packages/lf20_xlkxtmul.json");
  ("Energy", "https://assets9.lottiefiles.com/packages/lf20_rjqemd61.json");
  ("Pressure", "https://assets1.lottiefiles.com/packages/lf20_yppp1cui.json")
].

Definition animations : gmap string string := list_to_map animations_items.

Definition default_animation : string :=
  "https://assets9.lottiefiles.com/packages/lf20_khzniaya.json".

(** [animations.get(category, default)]. *)
Definition get_animation_url (category : string) : string :=
  default default_animation (animations !! category).

(** ** The category menu of [main] ([app.py], lines 130 and 148) *)

(** The label [f"{data['symbol']} {cat}"] of a menu option. *)
Definition menu_option (cat : string) (data : Category) : string :=
  symbol data ++ " " ++ cat.

(** [s.split(sep, 1)]: the text before the first [sep] and the text after
    it, or [s] alone when it has no [sep]. *)
Fixpoint str_split_1 (sep : Ascii.ascii) (s : string) : list string :=
  match s with
  | EmptyString => [EmptyString]
  | String c s' =>
      if Ascii.eqb c sep then [EmptyString; s']
      else
        match str_split_1 sep s' with
        | h :: t => String c h :: t
        | [] => []
        end
  end.

(** [selected_category.split(" ", 1)[1]]; [None] is Python's
    [IndexError]. *)
Definition selected_category_name (selected_category : string)
    : option string :=
  str_split_1 " "%char selected_category !! 1.

(** ** The unit boxes of [main] ([app.py], lines 195-207) *)

(** [l.index(x)]; [None] is Python's [ValueError]. *)
Fixpoint list_index (x : string) (l : list string) : option nat :=
  match l with
  | [] => None
  | y :: l' => if String.eqb y x then Some 0 else S <$> list_index x l'
  end.

(** [display_units], the options of both boxes. *)
Definition display_units (units : list string) : list string :=
  get_display_name <$> units.

(** The unit that lines 207-209 read back from the display name the box
    returned: [units[display_units.index(selected)]]. *)
Definition selected_unit (units : list string) (selected : string)
    : option string :=
  i ← list_index selected (display_units units); units !! i.

(** ** The handlers of [app.py] (lines 88-116) *)

Definition set_from_unit (u : string) (ss : SessionState) : SessionState :=
  {| current_category := current_category ss; input_value := input_value ss;
     from_unit := u; to_unit := to_unit ss; result := result ss;
     conversion_history := conversion_history ss; theme := theme ss |}.

Definition set_to_unit (u : string) (ss : SessionState) : SessionState :=
  {| current_category := current_category ss; input_value := input_value ss;
     from_unit := from_unit ss; to_unit := u; result := result ss;
     conversion_history := conversion_history ss; theme := theme ss |}.

Definition set_theme (t : string) (ss : SessionState) : SessionState :=
  {| current_category := current_category ss; input_value := input_value ss;
     from_unit := from_unit ss; to_unit := to_unit ss; result := result ss;
     conversion_history := conversion_history ss; theme := t |}.

(** What a handler that has no [try] of its own can end with: an exception
    of [exn], or the [IndexError] of a list subscript. *)
Inductive uncaught :=
  | Uncaught (e : exn)
  | IndexError.

(** [on_category_change] (lines 89-101); [None] is a normal return.  The
    lookups come first, so an exception leaves the session as it was. *)
Definition on_category_change (now : string) (st : Streamlit)
    : option uncaught * Streamlit :=
  let category := current_category (session_state st) in
  match CONVERSION_CATEGORIES !! category with
  | None => (Some (Uncaught (KeyError category)), st)
  | Some data =>
      let units := units data in
      match units !! 0 with
      | None => (Some IndexError, st)
      | Some first =>
          let st1 := (modify_session_state (set_from_unit first) st).2 in
          match (if 1 <? length units then units !! 1 else units !! 0) with
          | None => (Some IndexError, st1)
          | Some second =>
              let st2 := (modify_session_state (set_to_unit second) st1).2 in
              match update_result now st2 with
              | (Return _, st3) => (None, st3)
              | (Raise e, st3) => (Some (Uncaught e), st3)
              end
          end
      end
  end.

(** [swap_units] (lines 104-109): both units are read before either is
    written. *)
Definition swap_units (now : string) : Py unit :=
  ss ← get_session_state;
  modify_session_state (set_from_unit (to_unit ss));;
  modify_session_state (set_to_unit (from_unit ss));;
  update_result now.

(** [toggle_theme] (lines 112-116). *)
Definition toggle_theme : Py unit :=
  ss ← get_session_state;
  modify_session_state
    (set_theme (if String.eqb (theme ss) "light" then "dark" else "light")).

(** A record of the history is consistent when its [to_value] is what
    [convert_unit] returns for its other fields. *)
Definition entry_consistent (e : History.entry) : Prop :=
  History.to_value e
  = convert_unit_value (History.from_value e) (History.from_unit e)
      (History.to_unit e).

(** The two units convert without an error box: both are temperature
    units or both have a factor. *)
Definition convertible (from_unit to_unit : string) : Prop :=
  (from_unit ∈ temperature_units ∧ to_unit ∈ temperature_units)
  ∨ (is_Some (CONVERSION_FACTORS !! from_unit)
     ∧ is_Some (CONVERSION_FACTORS !! to_unit)).

(** An identifier as the catalog writes them: no upper-case letter and no
    space. *)
Definition identifier (s : string) : Prop :=
  Forall (λ c, is_upper c = false ∧ c ≠ " "%char)
    (String.list_ascii_of_string s).

(** Lower-casing, and putting the underscores back: the inverse of
    [get_display_name] on identifiers. *)
Fixpoint identifier_of_display (s : string) : string :=
  match s with
  | EmptyString => EmptyString
  | String c s' =>
      String (if Ascii.eqb c " " then "_"%char else to_lower c)
        (identifier_of_display s')
  end.

(** The session's two units are units of its current category. *)
Definition well_selected (st : Streamlit) : Prop :=
  ∃ data,
    CONVERSION_CATEGORIES !! current_category (session_state st) = Some data
    ∧ from_unit (session_state st) ∈ units data
    ∧ to_unit (session_state st) ∈ units data.

(** ** The writes of [main] to the session ([app.py], lines 148-153,
    186-192, 195-210, 224-236 and 295-296) *)

Definition set_current_category (c : string) (ss : SessionState)
    : SessionState :=
  {| current_category := c; input_value := input_value ss;
     from_unit := from_unit ss; to_unit := to_unit ss; result := result ss;
     conversion_history := conversion_history ss; theme := theme ss |}.

Definition set_input_value (x : float) (ss : SessionState) : SessionState :=
  {| current_category := current_category ss; input_value := x;
     from_unit := from_unit ss; to_unit := to_unit ss; result := result ss;
     conversion_history := conversion_history ss; theme := theme ss |}.

(** Lines 148-153, for the label [selected_category] that the menu
    returned: the name is read back from it, and when it is not the current
    category it is stored and [on_category_change] runs. *)
Definition category_selected (selected_category now : string)
    (st : Streamlit) : option uncaught * Streamlit :=
  match selected_category_name selected_category with
  | None => (Some IndexError, st)
  | Some name =>
      if negb (String.eqb name (current_category (session_state st))) then
        on_category_change now
          (modify_session_state (set_current_category name) st).2
      else (None, st)
  end.

(** Lines 186-192: the number box stores the number under its key
    [input_value] and then calls [on_change]. *)
Definition value_entered (x : float) (now : string) : Py unit :=
  modify_session_state (set_input_value x);;
  update_result now.

(** Lines 195 and 207-210, for the display name [selected_from_unit] that
    the "From" box returned: the unit at its index is stored, and the
    result updated, when it is not the stored one. *)
Definition from_unit_selected (selected_from_unit now : string)
    (st : Streamlit) : option uncaught * Streamlit :=
  let category := current_category (session_state st) in
  match CONVERSION_CATEGORIES !! category with
  | None => (Some (Uncaught (KeyError category)), st)
  | Some data =>
      let units := units data in
      match list_index selected_from_unit (display_units units) with
      | None => (Some (Uncaught ValueError), st)
      | Some i =>
          match units !! i with
          | None => (Some IndexError, st)
          | Some u =>
              if negb (String.eqb u (from_unit (session_state st))) then
                let st1 := (modify_session_state (set_from_unit u) st).2 in
                match update_result now st1 with
                | (Return _, st2) => (None, st2)
                | (Raise e, st2) => (Some (Uncaught e), st2)
                end
              else (None, st)
          end
      end
  end.

(** Lines 195 and 233-236, the same for the "To" box. *)
Definition to_unit_selected (selected_to_unit now : string)
    (st : Streamlit) : option uncaught * Streamlit :=
  let category := current_category (session_state st) in
  match CONVERSION_CATEGORIES !! category with
  | None => (Some (Uncaught (KeyError category)), st)
  | Some data =>
      let units := units data in
      match list_index selected_to_unit (display_units units) with
      | None => (Some (Uncaught ValueError), st)
      | Some i =>
          match units !! i with
          | None => (Some IndexError, st)
          | Some u =>
              if negb (String.eqb u (to_unit (session_state st))) then
                let st1 := (modify_session_state (set_to_unit u) st).2 in
                match update_result now st1 with
                | (Return _, st2) => (None, st2)
                | (Raise e, st2) => (Some (Uncaught e), st2)
                end
              else (None, st)
          end
      end
  end.

(** Lines 295-296: the "Clear History" button. *)
Definition clear_history : Py unit :=
  modify_session_state (set_conversion_history []).

(** The sessions of [app.py]: the one of lines 34-47, and those that the
    writes of [main] and the handlers make of such a session.  The menu
    returns one of its options, the label of a category of the catalog;
    the number box returns a float; what the unit boxes return is left
    open. *)
Inductive app_session : Streamlit → Prop :=
  | session_initial :
      app_session initial_st
  | session_category (name : string) (data : Category) (now : string)
      (st : Streamlit) :
      CONVERSION_CATEGORIES !! name = Some data →
      app_session st →
      app_session (category_selected (menu_option name data) now st).2
  | session_value (x : float) (now : string) (st : Streamlit) :
      app_session st → app_session (exec (value_entered x now) st)
  | session_from_unit (selected now : string) (st : Streamlit) :
      app_session st → app_session (from_unit_selected selected now st).2
  | session_to_unit (selected now : string) (st : Streamlit) :
      app_session st → app_session (to_unit_selected selected now st).2
  | session_swap (now : string) (st : Streamlit) :
      app_session st → app_session (exec (swap_units now) st)
  | session_theme (st : Streamlit) :
      app_session st → app_session (exec toggle_theme st)
  | session_clear (st : Streamlit) :
      app_session st → app_session (exec clear_history st).

(** * Properties *)

(** ** The factor table *)

Lemma CONVERSION_FACTORS_items_positive :
  Forall (λ kv, positive_factor kv.2) CONVERSION_FACTORS_items.
Proof.
  unfold CONVERSION_FACTORS_items.
  repeat (constructor; [repeat split; reflexivity|]).
  constructor.
Qed.

Lemma CONVERSION_FACTORS_lookup (u : string) (f : float) :
  CONVERSION_FACTORS !! u = Some f → (u, f) ∈ CONVERSION_FACTORS_items.
Proof. apply elem_of_list_to_map_2. Qed.

Lemma CONVERSION_FACTORS_positive (u : string) (f : float) :
  CONVERSION_FACTORS !! u = Some f → positive_factor f.
Proof.
  intros Hu%CONVERSION_FACTORS_lookup.
  pose proof CONVERSION_FACTORS_items_positive as HF.
  rewrite Forall_forall in HF.
  exact (HF _ Hu).
Qed.

Lemma temperature_units_no_factor (u : string) :
  u ∈ temperature_units → CONVERSION_FACTORS !! u = None.
Proof.
  unfold temperature_units.
  rewrite !elem_of_cons, elem_of_nil.
  intros [->|[->|[->|[]]]]; vm_compute; reflexivity.
Qed.

Lemma factor_not_temperature (u : string) (f : float) :
  CONVERSION_FACTORS !! u = Some f → u ∉ temperature_units.
Proof.
  intros Hu Ht. apply temperature_units_no_factor in Ht. congruence.
Qed.

(** The dispatch of [convert_unit_try], both ways. *)
Lemma convert_unit_try_temperature (value : float) (from_unit to_unit : string) :
  from_unit ∈ temperature_units → to_unit ∈ temperature_units →
  convert_unit_try value from_unit to_unit
  = temperature_path value from_unit to_unit.
Proof.
  intros Hf Ht. unfold convert_unit_try.
  rewrite !bool_decide_eq_true_2 by assumption. reflexivity.
Qed.

Lemma convert_unit_try_linear (value : float) (from_unit to_unit : string) :
  from_unit ∉ temperature_units ∨ to_unit ∉ temperature_units →
  convert_unit_try value from_unit to_unit
  = linear_path value from_unit to_unit.
Proof.
  intros H. unfold convert_unit_try.
  destruct H as [H|H]; rewrite (bool_decide_eq_false_2 _ H).
  - reflexivity.
  - rewrite andb_false_r. reflexivity.
Qed.

Lemma linear_path_factors (value : float) (from_unit to_unit : string)
    (f_from f_to : float) (st : Streamlit) :
  CONVERSION_FACTORS !! from_unit = Some f_from →
  CONVERSION_FACTORS !! to_unit = Some f_to →
  linear_path value from_unit to_unit st
  = (Return (value * f_from / f_to)%float, st).
Proof.
  intros Hf Ht.
  destruct (CONVERSION_FACTORS_positive _ _ Ht) as (_ & _ & Hz).
  unfold linear_path, getitem, truediv, mbind, Py_bind, mret, Py_ret.
  rewrite Hf, Ht, Hz. reflexivity.
Qed.

(** With two factors at hand the whole call returns the quotient and
    leaves [st] alone. *)
Lemma convert_unit_factor_path (value : float) (from_unit to_unit : string)
    (f_from f_to : float) (st : Streamlit) :
  CONVERSION_FACTORS !! from_unit = Some f_from →
  CONVERSION_FACTORS !! to_unit = Some f_to →
  convert_unit value from_unit to_unit st
  = (Return (value * f_from / f_to)%float, st).
Proof.
  intros Hf Ht.
  pose proof (factor_not_temperature _ _ Hf) as Hnot.
  unfold convert_unit, try_except.
  rewrite (convert_unit_try_linear value from_unit to_unit (or_introl Hnot)).
  rewrite (linear_path_factors value from_unit to_unit f_from f_to st Hf Ht).
  reflexivity.
Qed.

(** C1: when both units have an entry in the factor table, [convert_unit]
    returns [value * factor(from_unit) / factor(to_unit)], the product being
    taken first and then divided, and it shows no error. *)
Theorem convert_unit_linear (value : float) (from_unit to_unit : string)
    (f_from f_to : float) (st : Streamlit) :
  CONVERSION_FACTORS !! from_unit = Some f_from →
  CONVERSION_FACTORS !! to_unit = Some f_to →
  convert_unit value from_unit to_unit st
  = (Return (value * f_from / f_to)%float, st).
Proof.
  intros Hf Ht.
  unfold convert_unit, try_except.
  rewrite convert_unit_try_linear
    by (left; eapply factor_not_temperature; eassumption).
  rewrite (linear_path_factors _ _ _ _ _ _ Hf Ht). reflexivity.
Qed.

Lemma convert_unit_linear_witness :
  convert_unit 2.5 "kilometer" "mile" initial_st
  = (Return (2.5 * 1000.0 / 1609.344)%float, initial_st).
Proof.
  apply (convert_unit_linear 2.5 "kilometer" "mile" 1000.0 1609.344 initial_st);
    reflexivity.
Defined.

(** ** The temperature path *)

Lemma unit_name_temperature (u : temperature_unit) :
  unit_name u ∈ temperature_units.
Proof. destruct u; unfold temperature_units; set_solver. Qed.

Lemma temperature_units_names (s : string) :
  s ∈ temperature_units → ∃ u, s = unit_name u.
Proof.
  unfold temperature_units. rewrite !elem_of_cons, elem_of_nil.
  intros [->|[->|[->|[]]]];
    [exists celsius | exists fahrenheit | exists kelvin]; reflexivity.
Qed.

Lemma temperature_path_spec (value : float) (u v : temperature_unit)
    (st : Streamlit) :
  temperature_path value (unit_name u) (unit_name v) st
  = (Return (spec_denormalize v (spec_normalize u value)), st).
Proof. destruct u, v; reflexivity. Qed.

(** C2: on the nine pairs of temperature units [convert_unit] is the
    normalization of the value to kelvin followed by the denormalization
    from kelvin, with the formulas the specification gives. *)
Theorem convert_unit_temperature (value : float) (u v : temperature_unit)
    (st : Streamlit) :
  convert_unit value (unit_name u) (unit_name v) st
  = (Return (spec_denormalize v (spec_normalize u value)), st).
Proof.
  unfold convert_unit, try_except.
  rewrite convert_unit_try_temperature by apply unit_name_temperature.
  rewrite temperature_path_spec. reflexivity.
Qed.

(** C8: the three temperature fixed points hold with [==]: 0 °C is 32 °F,
    100 °C is 212 °F and 0 °C is 273.15 K. *)
Theorem temperature_fixed_points (st : Streamlit) :
  returns_equal (convert_unit 0 "celsius" "fahrenheit") st 32
  ∧ returns_equal (convert_unit 100 "celsius" "fahrenheit") st 212
  ∧ returns_equal (convert_unit 0 "celsius" "kelvin") st 273.15.
Proof.
  repeat split; eexists; (split; [reflexivity | vm_compute; reflexivity]).
Qed.

(** ** The catalog against the factor table *)

Lemma catalog_unit_listed (u : string) :
  catalog_unit u → u ∈ catalog_units.
Proof.
  intros (name & c & Hc & Hu).
  apply elem_of_list_to_map_2 in Hc.
  unfold catalog_units. apply list_elem_of_join.
  exists (units c). split; [assumption|].
  apply list_elem_of_fmap. exists (name, c). split; [reflexivity | assumption].
Qed.

Lemma catalog_units_have_factors :
  Forall (λ u, u ∈ temperature_units ∨ is_Some (CONVERSION_FACTORS !! u))
    catalog_units.
Proof.
  apply (bool_decide_unpack _). vm_compute. exact I.
Qed.

Lemma catalog_unit_has_factor (u : string) :
  catalog_unit u → u ∉ temperature_units → is_Some (CONVERSION_FACTORS !! u).
Proof.
  intros Hu%catalog_unit_listed Hn.
  pose proof catalog_units_have_factors as HF.
  rewrite Forall_forall in HF.
  destruct (HF _ Hu) as [Ht|Hs]; [contradiction | assumption].
Qed.

(** C10: every factor of the table is a finite, strictly positive float;
    every catalog unit other than the three temperature units has one; so
    for two such units the division of the factor path has a non-zero
    divisor and [convert_unit_try] returns the quotient without raising. *)
Theorem factors_positive_and_total :
  (∀ u f, CONVERSION_FACTORS !! u = Some f →
     (0 <? f)%float = true ∧ PrimFloat.is_finite f = true)
  ∧ (∀ u, catalog_unit u → u ∉ temperature_units →
       is_Some (CONVERSION_FACTORS !! u))
  ∧ (∀ value from_unit to_unit st,
       catalog_unit from_unit → from_unit ∉ temperature_units →
       catalog_unit to_unit → to_unit ∉ temperature_units →
       ∃ f_from f_to,
         CONVERSION_FACTORS !! from_unit = Some f_from
         ∧ CONVERSION_FACTORS !! to_unit = Some f_to
         ∧ PrimFloat.is_zero f_to = false
         ∧ convert_unit_try value from_unit to_unit st
           = (Return (value * f_from / f_to)%float, st)).
Proof.
  split; [|split].
  - intros u f Hu.
    destruct (CONVERSION_FACTORS_positive _ _ Hu) as (Hp & Hfin & _).
    split; assumption.
  - apply catalog_unit_has_factor.
  - intros value from_unit to_unit st Hcf Hnf Hct Hnt.
    destruct (catalog_unit_has_factor _ Hcf Hnf) as [f_from Hf].
    destruct (catalog_unit_has_factor _ Hct Hnt) as [f_to Ht].
    exists f_from, f_to. repeat split; try assumption.
    + apply (CONVERSION_FACTORS_positive _ _ Ht).
    + rewrite convert_unit_try_linear by (left; assumption).
      apply linear_path_factors; assumption.
Qed.

Lemma catalog_unit_psi : catalog_unit "psi".
Proof.
  exists "Pressure",
    {| units := ["pascal"; "kilopascal"; "bar"; "atmosphere"; "psi"];
       symbol := "🔄"; color := "#3F51B5" |}.
  split; [reflexivity | set_solver].
Defined.

Lemma catalog_unit_bar : catalog_unit "bar".
Proof.
  exists "Pressure",
    {| units := ["pascal"; "kilopascal"; "bar"; "atmosphere"; "psi"];
       symbol := "🔄"; color := "#3F51B5" |}.
  split; [reflexivity | set_solver].
Defined.

Lemma not_temperature_unit (u : string) :
  bool_decide (u ∈ temperature_units) = false → u ∉ temperature_units.
Proof. apply bool_decide_eq_false_1. Defined.

Lemma factors_positive_and_total_witness :
  ((0 <? 6894.76)%float = true ∧ PrimFloat.is_finite 6894.76 = true)
  ∧ is_Some (CONVERSION_FACTORS !! "psi")
  ∧ ∃ f_from f_to,
      CONVERSION_FACTORS !! "psi" = Some f_from
      ∧ CONVERSION_FACTORS !! "bar" = Some f_to
      ∧ PrimFloat.is_zero f_to = false
      ∧ convert_unit_try 30 "psi" "bar" initial_st
        = (Return (30 * f_from / f_to)%float, initial_st).
Proof.
  destruct factors_positive_and_total as (H1 & H2 & H3).
  split; [|split].
  - apply (H1 "psi" 6894.76%float). reflexivity.
  - apply (H2 "psi" catalog_unit_psi). apply not_temperature_unit. reflexivity.
  - apply (H3 30%float "psi" "bar" initial_st catalog_unit_psi).
    + apply not_temperature_unit. reflexivity.
    + exact catalog_unit_bar.
    + apply not_temperature_unit. reflexivity.
Defined.

(** ** Failed lookups *)

Lemma linear_path_missing (value : float) (from_unit to_unit key : string)
    (st : Streamlit) :
  missing_key from_unit to_unit = Some key →
  linear_path value from_unit to_unit st = (Raise (KeyError key), st).
Proof.
  unfold missing_key, linear_path, getitem, mbind, Py_bind, mret, Py_ret, raise.
  destruct (CONVERSION_FACTORS !! from_unit) as [f_from|];
    [destruct (CONVERSION_FACTORS !! to_unit) as [f_to|]|];
    intros [= <-]; reflexivity.
Qed.

Lemma convert_unit_catches (value : float) (from_unit to_unit : string)
    (e : exn) (st : Streamlit) :
  convert_unit_try value from_unit to_unit st = (Raise e, st) →
  convert_unit value from_unit to_unit st
  = (Return 0%float, show_error (Conversion_error e) st).
Proof.
  intros H. unfold convert_unit, try_except. rewrite H. reflexivity.
Qed.

(** The outcome of the [try] body does not depend on [st], and the body
    leaves [st] as it is. *)
Lemma convert_unit_try_pure (value : float) (from_unit to_unit : string)
    (st st' : Streamlit) :
  convert_unit_try value from_unit to_unit st
  = ((convert_unit_try value from_unit to_unit st').1, st).
Proof.
  unfold convert_unit_try.
  destruct (_ && _).
  - unfold temperature_path, truediv, mbind, Py_bind, mret, Py_ret.
    destruct (String.eqb from_unit "celsius"),
      (String.eqb from_unit "fahrenheit"), (String.eqb to_unit "celsius"),
      (String.eqb to_unit "fahrenheit"); reflexivity.
  - unfold linear_path, getitem, truediv, mbind, Py_bind, mret, Py_ret, raise.
    destruct (CONVERSION_FACTORS !! from_unit) as [f_from|]; [|reflexivity].
    destruct (CONVERSION_FACTORS !! to_unit) as [f_to|]; [|reflexivity].
    destruct (PrimFloat.is_zero f_to); reflexivity.
Qed.

(** [convert_unit] never lets an exception out. *)
Lemma convert_unit_returns (value : float) (from_unit to_unit : string)
    (st : Streamlit) :
  ∃ r st', convert_unit value from_unit to_unit st = (Return r, st').
Proof.
  unfold convert_unit, try_except.
  destruct (convert_unit_try value from_unit to_unit st) as [[r|e] st'];
    eexists _, _; reflexivity.
Qed.

(** C3, as the specification states it, fails: the call with the unknown
    unit ["furlong"] does not raise, it returns the default [0.0]. *)
Lemma convert_unit_furlong_returns_zero :
  CONVERSION_FACTORS !! "furlong" = None
  ∧ convert_unit 1 "furlong" "meter" initial_st
    = (Return 0%float,
       show_error (Conversion_error (KeyError "furlong")) initial_st)
  ∧ ∀ e st', convert_unit 1 "furlong" "meter" initial_st ≠ (Raise e, st').
Proof.
  split; [reflexivity|]. split; [reflexivity|].
  intros e st' H. vm_compute in H. discriminate H.
Qed.

(** C3, amended: when the factor path is taken and a lookup misses,
    [convert_unit] catches the [KeyError], shows it through [st.error] and
    returns [0.0] to its caller; no exception leaves the function. *)
Theorem convert_unit_unknown_unit (value : float)
    (from_unit to_unit key : string) (st : Streamlit) :
  from_unit ∉ temperature_units ∨ to_unit ∉ temperature_units →
  missing_key from_unit to_unit = Some key →
  convert_unit_try value from_unit to_unit st = (Raise (KeyError key), st)
  ∧ convert_unit value from_unit to_unit st
    = (Return 0%float, show_error (Conversion_error (KeyError key)) st).
Proof.
  intros Hlin Hkey.
  assert (convert_unit_try value from_unit to_unit st
          = (Raise (KeyError key), st)) as Htry.
  { rewrite convert_unit_try_linear by assumption.
    apply linear_path_missing; assumption. }
  split; [assumption|].
  apply convert_unit_catches; assumption.
Qed.

Lemma convert_unit_unknown_unit_witness :
  convert_unit_try 1 "meter" "furlong" initial_st
  = (Raise (KeyError "furlong"), initial_st)
  ∧ convert_unit 1 "meter" "furlong" initial_st
    = (Return 0%float,
       show_error (Conversion_error (KeyError "furlong")) initial_st).
Proof.
  apply (convert_unit_unknown_unit 1 "meter" "furlong" "furlong" initial_st).
  - left. apply not_temperature_unit. reflexivity.
  - reflexivity.
Defined.

(** ** The dispatch between the two paths *)

Lemma mixed_pair_missing_key (from_unit to_unit : string) :
  mixed_pair from_unit to_unit →
  ∃ key, missing_key from_unit to_unit = Some key
         ∧ (key = from_unit ∨ key = to_unit).
Proof.
  unfold missing_key.
  intros [[Hf Ht]|[Hf Ht]].
  - rewrite (temperature_units_no_factor _ Hf). eauto.
  - rewrite (temperature_units_no_factor _ Ht).
    destruct (CONVERSION_FACTORS !! from_unit); eauto.
Qed.

(** C7, as the specification states it, fails in its last clause: with
    ["celsius"] and ["meter"] the factor path is taken and the lookup of
    ["celsius"] misses, but [convert_unit] returns [0.0] instead of failing. *)
Lemma convert_unit_celsius_meter_returns_zero :
  mixed_pair "celsius" "meter"
  ∧ linear_path 1 "celsius" "meter" initial_st
    = (Raise (KeyError "celsius"), initial_st)
  ∧ convert_unit 1 "celsius" "meter" initial_st
    = (Return 0%float,
       show_error (Conversion_error (KeyError "celsius")) initial_st)
  ∧ ∀ e st', convert_unit 1 "celsius" "meter" initial_st ≠ (Raise e, st').
Proof.
  split.
  { left. split; [set_solver | apply not_temperature_unit; reflexivity]. }
  split; [reflexivity|]. split; [reflexivity|].
  intros e st' H. vm_compute in H. discriminate H.
Qed.

(** C7, amended: the temperature path is taken exactly when both units are
    among celsius, fahrenheit and kelvin, whatever the session (and so the
    active category) holds; when exactly one unit is a temperature unit the
    factor path is taken and a lookup misses with a [KeyError], which
    [convert_unit] catches: it shows the error and returns [0.0]. *)
Theorem convert_unit_dispatch (value : float) (from_unit to_unit : string)
    (st : Streamlit) :
  (from_unit ∈ temperature_units → to_unit ∈ temperature_units →
     convert_unit_try value from_unit to_unit
     = temperature_path value from_unit to_unit)
  ∧ (from_unit ∉ temperature_units ∨ to_unit ∉ temperature_units →
       convert_unit_try value from_unit to_unit
       = linear_path value from_unit to_unit)
  ∧ (∀ st', (convert_unit_try value from_unit to_unit st).1
            = (convert_unit_try value from_unit to_unit st').1)
  ∧ (mixed_pair from_unit to_unit →
       ∃ key,
         (key = from_unit ∨ key = to_unit)
         ∧ CONVERSION_FACTORS !! key = None
         ∧ convert_unit_try value from_unit to_unit st
           = (Raise (KeyError key), st)
         ∧ convert_unit value from_unit to_unit st
           = (Return 0%float, show_error (Conversion_error (KeyError key)) st)).
Proof.
  split; [apply convert_unit_try_temperature|].
  split; [apply convert_unit_try_linear|].
  split.
  { intros st'. rewrite (convert_unit_try_pure _ _ _ st st'). reflexivity. }
  intros Hmix.
  destruct (mixed_pair_missing_key _ _ Hmix) as (key & Hkey & Hwhich).
  assert (from_unit ∉ temperature_units ∨ to_unit ∉ temperature_units) as Hlin.
  { destruct Hmix as [[_ H]|[H _]]; [right | left]; exact H. }
  assert (convert_unit_try value from_unit to_unit st
          = (Raise (KeyError key), st)) as Htry.
  { rewrite convert_unit_try_linear by assumption.
    apply linear_path_missing; assumption. }
  exists key. split; [assumption|]. split.
  { unfold missing_key in Hkey.
    destruct (CONVERSION_FACTORS !! from_unit) eqn:Hf.
    - destruct (CONVERSION_FACTORS !! to_unit) eqn:Ht; [discriminate|].
      injection Hkey as <-. exact Ht.
    - injection Hkey as <-. exact Hf. }
  split; [assumption|].
  apply convert_unit_catches; assumption.
Qed.

Lemma convert_unit_dispatch_witness :
  convert_unit_try 20 "celsius" "kelvin"
  = temperature_path 20 "celsius" "kelvin"
  ∧ convert_unit_try 20 "meter" "kelvin" = linear_path 20 "meter" "kelvin"
  ∧ ∃ key,
      (key = "meter" ∨ key = "kelvin")
      ∧ CONVERSION_FACTORS !! key = None
      ∧ convert_unit_try 20 "meter" "kelvin" initial_st
        = (Raise (KeyError key), initial_st)
      ∧ convert_unit 20 "meter" "kelvin" initial_st
        = (Return 0%float,
           show_error (Conversion_error (KeyError key)) initial_st).
Proof.
  split; [|split].
  - apply (convert_unit_dispatch 20 "celsius" "kelvin" initial_st);
      set_solver.
  - apply (convert_unit_dispatch 20 "meter" "kelvin" initial_st).
    left. apply not_temperature_unit. reflexivity.
  - apply (convert_unit_dispatch 20 "meter" "kelvin" initial_st).
    right. split; [apply not_temperature_unit; reflexivity | set_solver].
Defined.

(** ** The conversion history *)

Lemma convert_unit_value_spec (value : float) (from_unit to_unit : string)
    (st : Streamlit) :
  ∃ st', convert_unit value from_unit to_unit st
         = (Return (convert_unit_value value from_unit to_unit), st')
         ∧ session_state st' = session_state st.
Proof.
  unfold convert_unit, convert_unit_value, try_except.
  rewrite (convert_unit_try_pure _ _ _ st initial_st).
  destruct (convert_unit_try value from_unit to_unit initial_st).1 as [r|e];
    eexists; split; reflexivity.
Qed.

Lemma slice_last_short {A : Type} (n : nat) (l : list A) :
  length l ≤ n → slice_last n l = l.
Proof.
  intros H. unfold slice_last.
  replace (length l - n) with 0 by lia. reflexivity.
Qed.

Lemma length_slice_last {A : Type} (n : nat) (l : list A) :
  length (slice_last n l) = length l `min` n.
Proof. unfold slice_last. rewrite length_drop. lia. Qed.

Lemma slice_last_app {A : Type} (n : nat) (l l' : list A) :
  slice_last n (slice_last n l ++ l') = slice_last n (l ++ l').
Proof.
  unfold slice_last.
  rewrite !length_app, length_drop.
  rewrite <- (drop_app_le l l' (length l - n)) by lia.
  rewrite drop_drop. f_equal. lia.
Qed.

(** What one call of [update_result] does to the history. *)
Lemma update_result_history (now : string) (st : Streamlit) :
  history (exec (update_result now) st)
  = slice_last 10 (history st ++ [recorded_entry now (session_state st)]).
Proof.
  unfold exec, update_result, try_except, update_result_try.
  unfold mbind, Py_bind at 1 2.
  unfold get_session_state at 1, py_float, mret, Py_ret.
  unfold Py_bind at 1.
  destruct (convert_unit_value_spec (input_value (session_state st))
              (from_unit (session_state st)) (to_unit (session_state st)) st)
    as (st' & -> & Hss).
  unfold Py_bind, modify_session_state, get_session_state, history. simpl.
  rewrite Hss. unfold recorded_entry.
  destruct (10 <? _)%nat eqn:Hlen; simpl.
  - reflexivity.
  - apply Nat.ltb_ge in Hlen. rewrite slice_last_short by exact Hlen.
    reflexivity.
Qed.

Lemma perform_history (st : Streamlit) (a : Action) :
  history (perform st a) = slice_last 10 (history st ++ [action_entry a]).
Proof. unfold perform. rewrite update_result_history. reflexivity. Qed.

Lemma foldl_perform_history (acts : list Action) (st : Streamlit) :
  length (history st) ≤ 10 →
  history (foldl perform st acts)
  = slice_last 10 (history st ++ (action_entry <$> acts)).
Proof.
  revert st. induction acts as [|a acts IH]; intros st Hlen; simpl.
  - rewrite app_nil_r, slice_last_short by exact Hlen. reflexivity.
  - rewrite IH.
    + rewrite perform_history, slice_last_app, <- app_assoc. reflexivity.
    + rewrite perform_history, length_slice_last. lia.
Qed.

(** C6: after [update_result] has appended its record the history holds at
    most 10 records, whatever it held before; and 15 conversions run from an
    empty history leave exactly the records of the last 10, in the order
    in which they were made. *)
Theorem history_bounded_fifo :
  (∀ now st, length (history (exec (update_result now) st)) ≤ 10)
  ∧ (∀ (acts : list Action) st,
       history st = [] → length acts = 15 →
       history (foldl perform st acts) = drop 5 (action_entry <$> acts)
       ∧ length (history (foldl perform st acts)) = 10).
Proof.
  split.
  - intros now st. rewrite update_result_history, length_slice_last. lia.
  - intros acts st Hempty Hlen.
    assert (history (foldl perform st acts) = drop 5 (action_entry <$> acts))
      as Heq.
    { rewrite foldl_perform_history by (rewrite Hempty; simpl; lia).
      rewrite Hempty. simpl. unfold slice_last.
      rewrite length_fmap, Hlen. reflexivity. }
    split; [exact Heq|].
    rewrite Heq, length_drop, length_fmap, Hlen. reflexivity.
Qed.

Lemma history_bounded_fifo_witness :
  length (history (exec (update_result "2023-01-01 00:00:00") initial_st)) ≤ 10
  ∧ history (foldl perform initial_st fifteen_actions)
    = drop 5 (action_entry <$> fifteen_actions)
  ∧ length (history (foldl perform initial_st fifteen_actions)) = 10.
Proof.
  destruct history_bounded_fifo as [H1 H2].
  split; [apply H1|].
  apply (H2 fifteen_actions initial_st); reflexivity.
Defined.

(** [update_result] itself never reaches one of its handlers: the only
    call that could raise is [convert_unit], which catches everything. *)
Lemma update_result_try_returns (now : string) (st : Streamlit) :
  ∃ st', update_result_try now st = (Return tt, st').
Proof.
  unfold update_result_try.
  unfold mbind, Py_bind at 1 2.
  unfold get_session_state at 1, py_float, mret, Py_ret.
  unfold Py_bind at 1.
  destruct (convert_unit_value_spec (input_value (session_state st))
              (from_unit (session_state st)) (to_unit (session_state st)) st)
    as (st' & -> & Hss).
  unfold Py_bind, modify_session_state, get_session_state. simpl.
  destruct (10 <? _)%nat; eexists; reflexivity.
Qed.

(** ** Binary64 rounding

    The error analysis of [SFmul] and [SFdiv], the specification that
    [FloatAxioms] gives the primitive operations, for operands with a full
    mantissa and results away from overflow and underflow. *)

Section Binary64.

Local Open Scope R_scope.

(** *** Powers of two *)

Lemma bpow_pos e : 0 < bpow e.
Proof. apply powerRZ_lt. lra. Qed.

Lemma bpow_add a b : bpow (a + b) = bpow a * bpow b.
Proof. apply powerRZ_add. lra. Qed.

Lemma bpow_0 : bpow 0 = 1.
Proof. reflexivity. Qed.

Lemma bpow_1 : bpow 1 = 2.
Proof. unfold bpow. rewrite powerRZ_1. reflexivity. Qed.

Lemma bpow_m1 : bpow (-1) = / 2.
Proof.
  unfold bpow. change (-1)%Z with (- (1))%Z.
  rewrite powerRZ_neg' , powerRZ_1. reflexivity.
Qed.

(** *** Shifting right *)

(** One step of [shr_1] halves the value the record stands for. *)
Lemma shr_1_represents r v : represents r v → represents (shr_1 r) (v / 2).
Proof.
  destruct r as [m rb sb]. unfold represents. simpl.
  intros [Hm Hv].
  destruct m as [|p|p]; [| |lia].
  - destruct rb, sb; simpl in *; split; try lia; lra.
  - destruct p as [p|p|].
    + rewrite (Pos2Z.inj_xI p) in Hv. rewrite plus_IZR, mult_IZR in Hv.
      destruct rb, sb; simpl in *; split; try lia; lra.
    + rewrite (Pos2Z.inj_xO p) in Hv. rewrite mult_IZR in Hv.
      destruct rb, sb; simpl in *; split; try lia; lra.
    + destruct rb, sb; simpl in *; split; try lia; lra.
Qed.

(** [p] steps divide it by [2^p]. *)
Lemma iter_pos_shr_1_represents p : ∀ r v,
  represents r v → represents (SpecFloat.iter_pos shr_1 p r) (v * bpow (- Zpos p)).
Proof.
  induction p as [p IH|p IH|]; intros r v H; simpl.
  - apply shr_1_represents in H. apply IH in H. apply IH in H.
    replace (v * bpow (- Z.pos p~1))
      with (v / 2 * bpow (- Z.pos p) * bpow (- Z.pos p)); [exact H|].
    rewrite Pos2Z.inj_xI.
    replace (- (2 * Z.pos p + 1))%Z with (-1 + (- Z.pos p + - Z.pos p))%Z by lia.
    rewrite !bpow_add, bpow_m1. lra.
  - apply IH in H. apply IH in H.
    replace (v * bpow (- Z.pos p~0))
      with (v * bpow (- Z.pos p) * bpow (- Z.pos p)); [exact H|].
    rewrite Pos2Z.inj_xO.
    replace (- (2 * Z.pos p))%Z with (- Z.pos p + - Z.pos p)%Z by lia.
    rewrite !bpow_add. lra.
  - apply shr_1_represents in H.
    assert (v * bpow (- Z.pos 1) = v / 2) as Heq.
    { change (- Z.pos 1)%Z with (-1)%Z. rewrite bpow_m1. lra. }
    rewrite Heq. exact H.
Qed.

Lemma represents_bounds r v :
  represents r v → IZR (shr_m r) <= v < IZR (shr_m r) + 1.
Proof.
  unfold represents. intros [_ H].
  destruct (shr_r r), (shr_s r); lra.
Qed.

(** Rounding to nearest-even moves the value by at most one half. *)
Lemma round_nearest_even_close r v :
  represents r v →
  let m' := round_nearest_even (shr_m r) (loc_of_shr_record r) in
  (shr_m r <= m' <= shr_m r + 1)%Z ∧ Rabs (IZR m' - v) <= / 2.
Proof.
  destruct r as [m rb sb]. unfold represents. simpl. intros [Hm Hv].
  destruct rb, sb; simpl.
  - split; [lia|]. rewrite plus_IZR. apply Rabs_le. lra.
  - destruct (Z.even m); (split; [lia|]); rewrite ?plus_IZR; apply Rabs_le; lra.
  - split; [lia|]. apply Rabs_le. lra.
  - split; [lia|]. apply Rabs_le. lra.
Qed.

(** digits *)
(** *** Mantissa sizes *)

(** A mantissa of [d] bits lies in [[2^(d-1), 2^d)], and only there. *)
Lemma digits2_pos_bounds p :
  (2 ^ (Z.pos (digits2_pos p) - 1) <= Z.pos p < 2 ^ Z.pos (digits2_pos p))%Z.
Proof.
  induction p as [p IH|p IH|]; simpl digits2_pos.
  - rewrite Pos2Z.inj_succ.
    replace (Z.succ (Z.pos (digits2_pos p)) - 1)%Z
      with (Z.succ (Z.pos (digits2_pos p) - 1)) by lia.
    rewrite !Z.pow_succ_r by lia. lia.
  - rewrite Pos2Z.inj_succ.
    replace (Z.succ (Z.pos (digits2_pos p)) - 1)%Z
      with (Z.succ (Z.pos (digits2_pos p) - 1)) by lia.
    rewrite !Z.pow_succ_r by lia. lia.
  - simpl. lia.
Qed.

Lemma digits2_pos_unique p d :
  (2 ^ (d - 1) <= Z.pos p < 2 ^ d)%Z → (0 < d)%Z → Z.pos (digits2_pos p) = d.
Proof.
  intros [Hlo Hhi] Hd.
  pose proof (digits2_pos_bounds p) as [Hlo' Hhi'].
  destruct (Z.lt_trichotomy (Z.pos (digits2_pos p)) d) as [Hlt|[Heq|Hgt]];
    [|exact Heq|].
  - assert (2 ^ Z.pos (digits2_pos p) <= 2 ^ (d - 1))%Z
      by (apply Z.pow_le_mono_r; lia).
    lia.
  - assert (2 ^ d <= 2 ^ (Z.pos (digits2_pos p) - 1))%Z
      by (apply Z.pow_le_mono_r; lia).
    lia.
Qed.

Lemma IZR_pow2 k : (0 <= k)%Z → IZR (2 ^ k) = bpow k.
Proof.
  intros Hk. unfold bpow.
  rewrite <- (Z2Nat.id k Hk) at 1 2.
  rewrite <- pow_IZR, <- pow_powerRZ. reflexivity.
Qed.

Lemma bpow_le a b : (a <= b)%Z → bpow a <= bpow b.
Proof.
  intros H. replace b with (a + (b - a))%Z by lia.
  rewrite bpow_add, <- (IZR_pow2 (b - a)) by lia.
  assert (1 <= IZR (2 ^ (b - a))).
  { apply IZR_le. pose proof (Z.pow_pos_nonneg 2 (b - a)). lia. }
  pose proof (bpow_pos a). nra.
Qed.

(** An integer squeezed by the bounds of [represents]. *)
Lemma IZR_squeeze (m n : Z) : IZR m <= IZR n < IZR m + 1 → m = n.
Proof.
  intros [H1 H2]. apply le_IZR in H1.
  rewrite <- plus_IZR in H2. apply lt_IZR in H2. lia.
Qed.

Lemma Zdigits2_bounds m d :
  (0 < m)%Z → Zdigits2 m = d →
  (0 < d)%Z ∧ bpow (d - 1) <= IZR m ∧ IZR m + 1 <= bpow d.
Proof.
  intros Hm Hd. destruct m as [|p|p]; try lia. simpl in Hd. subst d.
  pose proof (digits2_pos_bounds p) as [Hlo Hhi].
  split; [lia|].
  rewrite <- !IZR_pow2 by lia. rewrite <- plus_IZR.
  split; apply IZR_le; lia.
Qed.

(** *** Rounding to 53 bits *)

(** In the normal range [shr_fexp] drops the [d - 53] low bits. *)
Lemma shr_fexp_spec m e l v d :
  (0 < m)%Z → represents (shr_record_of_loc m l) v → Zdigits2 m = d →
  (53 <= d)%Z → (-1074 <= e + d - 53)%Z →
  ∃ mrs, shr_fexp 53 1024 m e l = (mrs, (e + d - 53)%Z)
         ∧ represents mrs (v * bpow (53 - d)).
Proof.
  intros Hm Hrep Hd Hprec Hmin.
  unfold shr_fexp. rewrite Hd.
  unfold fexp, emin.
  replace (Z.max (d + e - 53) (3 - 1024 - 53) - e)%Z with (d - 53)%Z by lia.
  destruct (d - 53)%Z as [|p|p] eqn:Hn; [| |lia].
  - exists (shr_record_of_loc m l). simpl. split.
    + f_equal. lia.
    + replace (53 - d)%Z with 0%Z by lia. rewrite bpow_0, Rmult_1_r. exact Hrep.
  - exists (SpecFloat.iter_pos shr_1 p (shr_record_of_loc m l)). simpl. split.
    + f_equal. lia.
    + replace (53 - d)%Z with (- Z.pos p)%Z by lia.
      apply iter_pos_shr_1_represents. exact Hrep.
Qed.

Lemma shr_m_shr_record_of_loc m l : shr_m (shr_record_of_loc m l) = m.
Proof. destruct l as [|[]]; reflexivity. Qed.

(** The rounding of [SpecFloat], away from overflow and underflow: the
    result is a float with a 53-bit mantissa within half an ulp of the
    exact value [v * 2^ex]. *)
Theorem binary_round_aux_normal sx mx ex lx v d :
  (0 < mx)%Z → represents (shr_record_of_loc mx lx) v → Zdigits2 mx = d →
  (53 <= d)%Z → (-1074 <= ex + d - 53)%Z → (ex + d - 52 <= 971)%Z →
  ∃ m' e',
    binary_round_aux 53 1024 sx mx ex lx = S754_finite sx m' e'
    ∧ Z.pos (digits2_pos m') = 53%Z
    ∧ (ex + d - 53 <= e' <= ex + d - 52)%Z
    ∧ Rabs (IZR (Z.pos m') * bpow e' - v * bpow ex) <= bpow (ex + d - 54).
Proof.
  intros Hm Hrep Hd Hprec Hmin Hmax.
  destruct (shr_fexp_spec mx ex lx v d Hm Hrep Hd Hprec Hmin)
    as (mrs1 & Hshr1 & Hrep1).
  unfold binary_round_aux. rewrite Hshr1.
  set (v1 := v * bpow (53 - d)) in *.
  (* the shifted value lies in [2^52, 2^53) *)
  destruct (Zdigits2_bounds mx d Hm Hd) as (Hdpos & Hlo & Hhi).
  pose proof (represents_bounds _ _ Hrep) as Hv.
  rewrite shr_m_shr_record_of_loc in Hv.
  assert (bpow 52 <= v1 < bpow 53) as Hv1.
  { unfold v1. split.
    - replace (bpow 52) with (bpow (d - 1) * bpow (53 - d))
        by (rewrite <- bpow_add; f_equal; lia).
      apply Rmult_le_compat_r; [left; apply bpow_pos | lra].
    - replace (bpow 53) with (bpow d * bpow (53 - d))
        by (rewrite <- bpow_add; f_equal; lia).
      apply Rmult_lt_compat_r; [apply bpow_pos | lra]. }
  pose proof (represents_bounds _ _ Hrep1) as Hm1.
  destruct (round_nearest_even_close _ _ Hrep1) as [Hm2 Hclose].
  set (m1 := shr_m mrs1) in *.
  set (m2 := round_nearest_even m1 (loc_of_shr_record mrs1)) in *.
  rewrite <- !IZR_pow2 in Hv1 by lia.
  assert (2 ^ 52 <= m1 < 2 ^ 53)%Z as Hm1'.
  { split.
    - assert (IZR (2 ^ 52) < IZR (m1 + 1)) as H by (rewrite plus_IZR; lra).
      apply lt_IZR in H. lia.
    - apply lt_IZR. lra. }
  assert (Rabs (IZR m2 * bpow (ex + d - 53) - v * bpow ex)
          <= bpow (ex + d - 54)) as Herr.
  { replace (v * bpow ex) with (v1 * bpow (ex + d - 53)).
    2:{ unfold v1. rewrite Rmult_assoc, <- bpow_add. f_equal. f_equal. lia. }
    rewrite <- Rmult_minus_distr_r, Rabs_mult.
    rewrite (Rabs_pos_eq (bpow _)) by (left; apply bpow_pos).
    replace (ex + d - 54)%Z with (-1 + (ex + d - 53))%Z by lia.
    rewrite bpow_add, bpow_m1.
    pose proof (bpow_pos (ex + d - 53)). nra. }
  destruct (Z.eq_dec m2 (2 ^ 53)%Z) as [Hcarry|Hnocarry].
  - (* the rounding carried into the next binade *)
    rewrite Hcarry in *.
    exists (4503599627370496)%positive, (ex + d - 52)%Z.
    split; [|split; [reflexivity|split; [lia|]]].
    + unfold shr_fexp. change (Zdigits2 (2 ^ 53)%Z) with 54%Z.
      unfold fexp, emin.
      replace (Z.max (54 + (ex + d - 53) - 53) (3 - 1024 - 53) - (ex + d - 53))%Z
        with 1%Z by lia.
      change (2 ^ 53)%Z with 9007199254740992%Z.
      cbn. replace (ex + d - 53 + 1)%Z with (ex + d - 52)%Z by lia.
      destruct (Z.leb_spec (ex + d - 52) (1024 - 53)); [reflexivity|lia].
    + replace (IZR (Z.pos 4503599627370496) * bpow (ex + d - 52))
        with (IZR (2 ^ 53) * bpow (ex + d - 53)); [exact Herr|].
      replace (ex + d - 52)%Z with (1 + (ex + d - 53))%Z by lia.
      rewrite bpow_add, bpow_1.
      change (2 ^ 53)%Z with 9007199254740992%Z. lra.
  - assert (2 ^ 52 <= m2 < 2 ^ 53)%Z as Hm2' by lia.
    destruct m2 as [|p2|p2] eqn:Hp2; try lia.
    assert (Z.pos (digits2_pos p2) = 53%Z) as Hd2
      by (apply digits2_pos_unique; [exact Hm2' | lia]).
    exists p2, (ex + d - 53)%Z.
    split; [|split; [exact Hd2|split; [lia|exact Herr]]].
    unfold shr_fexp. simpl Zdigits2. rewrite Hd2.
    unfold fexp, emin.
    replace (Z.max (53 + (ex + d - 53) - 53) (3 - 1024 - 53) - (ex + d - 53))%Z
      with 0%Z by lia.
    cbn.
    destruct (Z.leb_spec (ex + d - 53) (1024 - 53)); [reflexivity|lia].
Qed.

Lemma Zdigits2_range m lo hi :
  (0 < lo)%Z → (2 ^ (lo - 1) <= m < 2 ^ hi)%Z → (lo <= Zdigits2 m <= hi)%Z.
Proof.
  intros Hlo [H1 H2].
  assert (0 < m)%Z as Hm by (pose proof (Z.pow_pos_nonneg 2 (lo - 1)); lia).
  destruct m as [|p|p]; try lia. simpl.
  pose proof (digits2_pos_bounds p) as [Hlo' Hhi'].
  split.
  - destruct (Z_lt_le_dec (Z.pos (digits2_pos p)) lo) as [Hlt|]; [|assumption].
    assert (2 ^ Z.pos (digits2_pos p) <= 2 ^ (lo - 1))%Z
      by (apply Z.pow_le_mono_r; lia).
    lia.
  - destruct (Z_lt_le_dec hi (Z.pos (digits2_pos p))) as [Hlt|]; [|assumption].
    assert (0 <= hi)%Z.
    { destruct (Z_lt_le_dec hi 0) as [Hneg|]; [|assumption].
      rewrite (Z.pow_neg_r 2 hi Hneg) in H2. lia. }
    assert (2 ^ hi <= 2 ^ (Z.pos (digits2_pos p) - 1))%Z
      by (apply Z.pow_le_mono_r; lia).
    lia.
Qed.

(** The rounding theorem with a relative error: half an ulp is at most
    [2^-53] times the exact value. *)
Corollary binary_round_aux_rel sx mx ex lx v d :
  (0 < mx)%Z → represents (shr_record_of_loc mx lx) v → Zdigits2 mx = d →
  (53 <= d)%Z → (-1074 <= ex + d - 53)%Z → (ex + d - 52 <= 971)%Z →
  ∃ m' e',
    binary_round_aux 53 1024 sx mx ex lx = S754_finite sx m' e'
    ∧ Z.pos (digits2_pos m') = 53%Z
    ∧ (ex + d - 53 <= e' <= ex + d - 52)%Z
    ∧ Rabs (IZR (Z.pos m') * bpow e' - v * bpow ex)
      <= bpow (-53) * (v * bpow ex).
Proof.
  intros Hm Hrep Hd Hprec Hmin Hmax.
  destruct (binary_round_aux_normal sx mx ex lx v d Hm Hrep Hd Hprec Hmin Hmax)
    as (m' & e' & Heq & Hdig & He & Herr).
  exists m', e'. repeat split; try assumption; try lia.
  eapply Rle_trans; [exact Herr|].
  destruct (Zdigits2_bounds mx d Hm Hd) as (_ & Hlo & _).
  pose proof (represents_bounds _ _ Hrep) as Hv.
  rewrite shr_m_shr_record_of_loc in Hv.
  replace (ex + d - 54)%Z with (-53 + ((d - 1) + ex))%Z by lia.
  rewrite !bpow_add.
  pose proof (bpow_pos (-53)). pose proof (bpow_pos ex).
  pose proof (bpow_pos (d - 1)).
  apply Rmult_le_compat_l; [lra|].
  apply Rmult_le_compat_r; lra.
Qed.

(** *** Products and quotients of normal floats *)

Lemma sign_of_xorb a b : sign_of (xorb a b) = sign_of a * sign_of b.
Proof. destruct a, b; simpl; lra. Qed.

Lemma Rabs_sign_of s x : Rabs (sign_of s * x) = Rabs x.
Proof.
  destruct s; simpl.
  - replace (-1 * x) with (- x) by lra. apply Rabs_Ropp.
  - f_equal. lra.
Qed.

Lemma SF2R_finite s m e :
  SF2R (S754_finite s m e) = sign_of s * (IZR (Z.pos m) * bpow e).
Proof. unfold SF2R, sign_of. destruct s; lra. Qed.

Lemma mantissa_bounds m :
  Z.pos (digits2_pos m) = 53%Z → (2 ^ 52 <= Z.pos m < 2 ^ 53)%Z.
Proof.
  intros H. pose proof (digits2_pos_bounds m) as HB. rewrite H in HB.
  exact HB.
Qed.

(** The product of two normal floats is the exact product rounded, with
    relative error at most [2^-53]. *)
Theorem SFmul_normal x y ex ey :
  normal_sf x ex → normal_sf y ey →
  (-1074 <= ex + ey + 52)%Z → (ex + ey + 54 <= 971)%Z →
  ∃ e', normal_sf (SFmul 53 1024 x y) e'
        ∧ (ex + ey + 52 <= e' <= ex + ey + 54)%Z
        ∧ Rabs (SF2R (SFmul 53 1024 x y) - SF2R x * SF2R y)
          <= bpow (-53) * Rabs (SF2R x * SF2R y).
Proof.
  intros (sx & mx & -> & Hdx) (sy & my & -> & Hdy) Hmin Hmax.
  pose proof (mantissa_bounds mx Hdx) as Hbx.
  pose proof (mantissa_bounds my Hdy) as Hby.
  change (2 ^ 52)%Z with 4503599627370496%Z in *.
  change (2 ^ 53)%Z with 9007199254740992%Z in *.
  assert (105 <= Zdigits2 (Z.pos (mx * my)) <= 106)%Z as Hd.
  { apply Zdigits2_range; [lia|].
    change (2 ^ (105 - 1))%Z with (4503599627370496 * 4503599627370496)%Z.
    change (2 ^ 106)%Z with (9007199254740992 * 9007199254740992)%Z.
    rewrite Pos2Z.inj_mul. nia. }
  assert (represents (shr_record_of_loc (Z.pos (mx * my)) loc_Exact)
            (IZR (Z.pos (mx * my)))) as Hrep.
  { split; simpl; [lia | reflexivity]. }
  destruct (binary_round_aux_rel (xorb sx sy) (Z.pos (mx * my)) (ex + ey)
              loc_Exact _ _ ltac:(lia) Hrep eq_refl)
    as (m' & e' & Heq & Hdig & He & Herr); try lia.
  exists e'. simpl SFmul. rewrite Heq.
  split; [exists (xorb sx sy), m'; split; [reflexivity | exact Hdig]|].
  split; [lia|].
  rewrite !SF2R_finite, sign_of_xorb.
  replace (sign_of sx * (IZR (Z.pos mx) * bpow ex)
           * (sign_of sy * (IZR (Z.pos my) * bpow ey)))
    with (sign_of sx * sign_of sy
          * (IZR (Z.pos (mx * my)) * bpow (ex + ey))).
  2:{ rewrite Pos2Z.inj_mul, mult_IZR, bpow_add. ring. }
  rewrite <- Rmult_minus_distr_l.
  rewrite <- !sign_of_xorb, !Rabs_sign_of.
  rewrite (Rabs_pos_eq (IZR _ * bpow (ex + ey))); [exact Herr|].
  apply Rmult_le_pos; [apply IZR_le; lia | left; apply bpow_pos].
Qed.

(** The location that the division computes from the remainder places
    the exact quotient [q + r / my]. *)
Lemma new_location_represents (my q r : Z) :
  (0 < my)%Z → (0 <= r < my)%Z → (0 <= q)%Z →
  represents (shr_record_of_loc q (new_location my r))
    (IZR q + IZR r / IZR my).
Proof.
  intros Hmy Hr Hq.
  assert (0 < IZR my) as HM by (apply IZR_lt; exact Hmy).
  set (rho := IZR r / IZR my).
  assert (rho * IZR my = IZR r) as Hrho by (unfold rho; field; lra).
  assert (0 <= IZR r < IZR my) as HrR.
  { split; [apply IZR_le | apply IZR_lt]; lia. }
  assert (0 <= rho < 1) as Hrho01 by (split; nra).
  unfold new_location.
  destruct (Z.even my) eqn:Heven;
    unfold new_location_even, new_location_odd;
    (destruct (Z.eqb_spec r 0) as [Hr0|Hr0];
     [assert (rho = 0) as -> by (subst r; nra); split; simpl; [lia | lra]|]);
    assert (0 < IZR r) as HrPos by (apply IZR_lt; lia);
    assert (0 < rho) as Hrho0 by nra.
  - destruct (Z.compare_spec (2 * r) my) as [Heq|Hlt|Hgt].
    + assert (2 * IZR r = IZR my) by (rewrite <- Heq, mult_IZR; reflexivity).
      split; simpl; [lia|]. nra.
    + assert (2 * IZR r < IZR my)
        by (rewrite <- mult_IZR; apply IZR_lt; exact Hlt).
      split; simpl; [lia|]. split; nra.
    + assert (IZR my < 2 * IZR r)
        by (rewrite <- mult_IZR; apply IZR_lt; exact Hgt).
      split; simpl; [lia|]. split; nra.
  - assert (Z.odd my = true) as Hodd by (rewrite <- Z.negb_even, Heven; reflexivity).
    apply Z.odd_spec in Hodd. destruct Hodd as [k Hk].
    destruct (Z.compare_spec (2 * r + 1) my) as [Heq|Hlt|Hgt].
    + assert (2 * IZR r < IZR my)
        by (rewrite <- mult_IZR; apply IZR_lt; lia).
      split; simpl; [lia|]. split; nra.
    + assert (2 * IZR r < IZR my)
        by (rewrite <- mult_IZR; apply IZR_lt; lia).
      split; simpl; [lia|]. split; nra.
    + assert (IZR my < 2 * IZR r)
        by (rewrite <- mult_IZR; apply IZR_lt; lia).
      split; simpl; [lia|]. split; nra.
Qed.

(** For 53-bit mantissas the division core divides [mx * 2^53] by [my]. *)
Lemma SFdiv_core_binary_normal mx ex my ey :
  Z.pos (digits2_pos mx) = 53%Z → Z.pos (digits2_pos my) = 53%Z →
  (-1074 <= ex - ey - 53)%Z →
  ∃ q r,
    SFdiv_core_binary 53 1024 (Z.pos mx) ex (Z.pos my) ey
    = (q, (ex - ey - 53)%Z, new_location (Z.pos my) r)
    ∧ (Z.pos mx * 2 ^ 53 = Z.pos my * q + r)%Z
    ∧ (0 <= r < Z.pos my)%Z.
Proof.
  intros Hdx Hdy Hmin.
  unfold SFdiv_core_binary. simpl Zdigits2. rewrite Hdx, Hdy.
  unfold fexp, emin.
  replace (Z.min (Z.max (53 + ex - (53 + ey) - 53) (3 - 1024 - 53)) (ex - ey))%Z
    with (ex - ey - 53)%Z by lia.
  replace (ex - ey - (ex - ey - 53))%Z with 53%Z by lia.
  cbv iota.
  rewrite Z.shiftl_mul_pow2 by lia.
  pose proof (Z_div_mod (Z.pos mx * 2 ^ 53) (Z.pos my) ltac:(lia)) as Hdm.
  destruct (Z.div_eucl (Z.pos mx * 2 ^ 53) (Z.pos my)) as [q r].
  exists q, r. split; [reflexivity|]. exact Hdm.
Qed.

(** The quotient of two normal floats is the exact quotient rounded, with
    relative error at most [2^-53]. *)
Theorem SFdiv_normal x y ex ey :
  normal_sf x ex → normal_sf y ey →
  (-1074 <= ex - ey - 53)%Z → (ex - ey - 51 <= 971)%Z →
  ∃ e', normal_sf (SFdiv 53 1024 x y) e'
        ∧ (ex - ey - 53 <= e' <= ex - ey - 51)%Z
        ∧ Rabs (SF2R (SFdiv 53 1024 x y) - SF2R x / SF2R y)
          <= bpow (-53) * Rabs (SF2R x / SF2R y).
Proof.
  intros (sx & mx & -> & Hdx) (sy & my & -> & Hdy) Hmin Hmax.
  pose proof (mantissa_bounds mx Hdx) as Hbx.
  pose proof (mantissa_bounds my Hdy) as Hby.
  destruct (SFdiv_core_binary_normal mx ex my ey Hdx Hdy Hmin)
    as (q & r & Hcore & Hqr & Hr).
  change (2 ^ 52)%Z with 4503599627370496%Z in *.
  change (2 ^ 53)%Z with 9007199254740992%Z in *.
  assert (4503599627370496 <= q < 18014398509481984)%Z as Hq by nia.
  assert (53 <= Zdigits2 q <= 54)%Z as Hd.
  { apply Zdigits2_range; [lia|].
    change (2 ^ (53 - 1))%Z with 4503599627370496%Z.
    change (2 ^ 54)%Z with 18014398509481984%Z. exact Hq. }
  pose proof (new_location_represents (Z.pos my) q r ltac:(lia) Hr ltac:(lia))
    as Hrep.
  destruct (binary_round_aux_rel (xorb sx sy) q (ex - ey - 53)
              (new_location (Z.pos my) r) _ _ ltac:(lia) Hrep eq_refl)
    as (m' & e' & Heq & Hdig & He & Herr); try lia.
  exists e'. simpl SFdiv. rewrite Hcore, Heq.
  split; [exists (xorb sx sy), m'; split; [reflexivity | exact Hdig]|].
  split; [lia|].
  assert (0 < IZR (Z.pos my)) as HMy by (apply IZR_lt; lia).
  assert (0 < IZR (Z.pos mx)) as HMx by (apply IZR_lt; lia).
  pose proof (bpow_pos ex) as Hbex. pose proof (bpow_pos ey) as Hbey.
  assert ((IZR q + IZR r / IZR (Z.pos my)) * bpow (ex - ey - 53)
          = IZR (Z.pos mx) * bpow ex / (IZR (Z.pos my) * bpow ey)) as Hval.
  { assert (IZR q + IZR r / IZR (Z.pos my)
            = IZR (Z.pos mx) * bpow 53 / IZR (Z.pos my)) as ->.
    { rewrite <- IZR_pow2 by lia.
      change (2 ^ 53)%Z with 9007199254740992%Z.
      rewrite <- mult_IZR, Hqr, plus_IZR, mult_IZR. field. lra. }
    replace (ex - ey - 53)%Z with (ex + (- ey + -53))%Z by lia.
    rewrite !bpow_add.
    assert (bpow ey * bpow (- ey) = 1) as Hinv1
      by (rewrite <- bpow_add; replace (ey + - ey)%Z with 0%Z by lia;
          apply bpow_0).
    assert (bpow 53 * bpow (-53) = 1) as Hinv2
      by (rewrite <- bpow_add; apply bpow_0).
    pose proof (bpow_pos (- ey)). pose proof (bpow_pos (-53)).
    pose proof (bpow_pos 53).
    apply (Rmult_eq_reg_r (IZR (Z.pos my) * bpow ey)); [|nra].
    field_simplify; [|lra|lra].
    replace (IZR (Z.pos mx) * bpow 53 * bpow ex * bpow (- ey) * bpow (-53)
             * bpow ey)
      with (IZR (Z.pos mx) * bpow ex * (bpow 53 * bpow (-53))
            * (bpow ey * bpow (- ey))) by ring.
    rewrite Hinv1, Hinv2. ring. }
  rewrite Hval in Herr.
  rewrite !SF2R_finite, sign_of_xorb.
  replace (sign_of sx * (IZR (Z.pos mx) * bpow ex)
           / (sign_of sy * (IZR (Z.pos my) * bpow ey)))
    with (sign_of sx * sign_of sy
          * (IZR (Z.pos mx) * bpow ex / (IZR (Z.pos my) * bpow ey))).
  2:{ destruct sx, sy; unfold sign_of; field; nra. }
  rewrite <- Rmult_minus_distr_l.
  rewrite <- !sign_of_xorb, !Rabs_sign_of.
  rewrite (Rabs_pos_eq (_ / _)); [exact Herr|].
  apply Rmult_le_pos; [nra|]. left. apply Rinv_0_lt_compat. nra.
Qed.

(** *** The primitive operations *)

(** The same for [*] and [/] on primitive floats, through [mul_spec] and
    [div_spec]. *)
Theorem mul_normal (x y : float) ex ey :
  normal x ex → normal y ey →
  (-1074 <= ex + ey + 52)%Z → (ex + ey + 54 <= 971)%Z →
  ∃ e', normal (x * y)%float e'
        ∧ (ex + ey + 52 <= e' <= ex + ey + 54)%Z
        ∧ Rabs (B2R (x * y)%float - B2R x * B2R y)
          <= bpow (-53) * Rabs (B2R x * B2R y).
Proof.
  intros Hx Hy Hmin Hmax. unfold normal, B2R. rewrite mul_spec.
  apply SFmul_normal; assumption.
Qed.

Theorem div_normal (x y : float) ex ey :
  normal x ex → normal y ey →
  (-1074 <= ex - ey - 53)%Z → (ex - ey - 51 <= 971)%Z →
  ∃ e', normal (x / y)%float e'
        ∧ (ex - ey - 53 <= e' <= ex - ey - 51)%Z
        ∧ Rabs (B2R (x / y)%float - B2R x / B2R y)
          <= bpow (-53) * Rabs (B2R x / B2R y).
Proof.
  intros Hx Hy Hmin Hmax. unfold normal, B2R. rewrite div_spec.
  apply SFdiv_normal; assumption.
Qed.

Lemma normal_nonzero x e : normal x e → B2R x ≠ 0.
Proof.
  intros (s & m & Heq & Hd). unfold B2R. rewrite Heq, SF2R_finite.
  assert (0 < IZR (Z.pos m)) by (apply IZR_lt; lia).
  pose proof (bpow_pos e).
  destruct s; unfold sign_of; nra.
Qed.

(** Chaining relative errors through a multiplication by [c]. *)
Lemma rel_err_step (a p q c e1 e2 : R) :
  0 <= e1 → 0 <= e2 →
  Rabs (p - a) <= e1 * Rabs a →
  Rabs (q - p * c) <= e2 * Rabs (p * c) →
  Rabs (q - a * c) <= (e1 + e2 + e1 * e2) * Rabs (a * c).
Proof.
  intros He1 He2 Hp Hq.
  rewrite Rabs_mult in *.
  assert (Rabs p <= Rabs a + Rabs (p - a)) as Hpa.
  { replace p with (a + (p - a)) at 1 by ring. apply Rabs_triang. }
  assert (Rabs (q - a * c) <= Rabs (q - p * c) + Rabs (p - a) * Rabs c) as Ht.
  { replace (q - a * c) with ((q - p * c) + (p - a) * c) by ring.
    rewrite <- Rabs_mult. apply Rabs_triang. }
  pose proof (Rabs_pos a). pose proof (Rabs_pos c). pose proof (Rabs_pos p).
  pose proof (Rabs_pos (p - a)).
  assert (Rabs p * Rabs c <= (1 + e1) * Rabs a * Rabs c) by nra.
  assert (Rabs (p - a) * Rabs c <= e1 * Rabs a * Rabs c) by nra.
  nra.
Qed.

Lemma bpow_m53 : bpow (-53) = / 9007199254740992.
Proof.
  apply (Rmult_eq_reg_r (bpow 53)); [|pose proof (bpow_pos 53); lra].
  rewrite <- bpow_add. change (-53 + 53)%Z with 0%Z. rewrite bpow_0.
  rewrite <- (IZR_pow2 53) by lia.
  change (2 ^ 53)%Z with 9007199254740992%Z. field.
Qed.

(** [x * f / f' * f' / f]: four roundings. *)
Theorem round_trip_normal (x f g : float) ex ef eg :
  normal x ex → normal f ef → normal g eg →
  (-952 <= ex <= 848)%Z → (-63 <= ef <= -12)%Z → (-63 <= eg <= -12)%Z →
  ∃ e', normal (x * f / g * g / f)%float e'
        ∧ Rabs (B2R (x * f / g * g / f)%float - B2R x)
          <= / 1000000000 * Rabs (B2R x).
Proof.
  intros Hx Hf Hg Hex Hef Heg.
  destruct (mul_normal x f ex ef Hx Hf) as (e1 & H1 & He1 & Herr1); try lia.
  destruct (div_normal _ g e1 eg H1 Hg) as (e2 & H2 & He2 & Herr2); try lia.
  destruct (mul_normal _ g e2 eg H2 Hg) as (e3 & H3 & He3 & Herr3); try lia.
  destruct (div_normal _ f e3 ef H3 Hf) as (e4 & H4 & He4 & Herr4); try lia.
  exists e4. split; [exact H4|].
  pose proof (normal_nonzero f ef Hf) as HF.
  pose proof (normal_nonzero g eg Hg) as HG.
  set (X := B2R x) in *. set (F := B2R f) in *. set (G := B2R g) in *.
  set (u := bpow (-53)) in *.
  assert (0 < u <= / 1000000000000000) as Hu.
  { unfold u. rewrite bpow_m53. split.
    - apply Rinv_0_lt_compat. lra.
    - apply Rinv_le_contravar; lra. }
  assert (Rabs (B2R (x * f)%float - X * F) <= u * Rabs (X * F)) as S1
    by exact Herr1.
  unfold Rdiv in *.
  pose proof (rel_err_step (X * F) _ _ (/ G) u u ltac:(lra) ltac:(lra)
                S1 Herr2) as S2.
  set (u2 := u + u + u * u) in *.
  assert (0 <= u2 <= 3 * / 1000000000000000) as Hu2 by (unfold u2; nra).
  pose proof (rel_err_step (X * F * / G) _ _ G u2 u ltac:(lra) ltac:(lra)
                S2 Herr3) as S3.
  set (u3 := u2 + u + u2 * u) in *.
  assert (0 <= u3 <= 5 * / 1000000000000000) as Hu3 by (unfold u3; nra).
  pose proof (rel_err_step (X * F * / G * G) _ _ (/ F) u3 u ltac:(lra)
                ltac:(lra) S3 Herr4) as S4.
  set (u4 := u3 + u + u3 * u) in *.
  assert (0 <= u4 <= 7 * / 1000000000000000) as Hu4 by (unfold u4; nra).
  replace (X * F * / G * G * / F) with X in S4 by (field; split; assumption).
  eapply Rle_trans; [exact S4|].
  apply Rmult_le_compat_r; [apply Rabs_pos | lra].
Qed.

(** *** Zero and the range test *)

Lemma is_zero_zero (x : float) : PrimFloat.is_zero x = true → zero x.
Proof.
  unfold PrimFloat.is_zero, zero. rewrite FloatAxioms.eqb_spec.
  change (Prim2SF 0) with (S754_zero false).
  destruct (Prim2SF x) as [s|s| |s m e]; try discriminate.
  - eauto.
  - destruct s; discriminate.
  - destruct s; discriminate.
Qed.

(** A double that passes the range test is normal, with its exponent
    between those of [2^-900] and [2^900]. *)
Lemma leb_range_normal (x : float) :
  ((0x1p-900 <=? abs x) && (abs x <=? 0x1p+900))%float = true →
  ∃ e, normal x e ∧ (-952 <= e <= 848)%Z.
Proof.
  intros H. apply andb_true_iff in H. revert H.
  rewrite !leb_spec, abs_spec.
  change (Prim2SF 0x1p-900) with (S754_finite false 4503599627370496 (-952)).
  change (Prim2SF 0x1p+900) with (S754_finite false 4503599627370496 848).
  pose proof (Prim2SF_valid x) as Hvalid.
  unfold normal.
  destruct (Prim2SF x) as [s|s| |s m e]; simpl; intros [Hlo Hhi];
    try discriminate.
  unfold SFleb, SFcompare in Hlo, Hhi.
  assert (-952 <= e <= 848)%Z as He.
  { split.
    - destruct (Z.compare_spec (-952) e); try lia; discriminate.
    - destruct (Z.compare_spec e 848); try lia; discriminate. }
  exists e. split; [|exact He].
  exists s, m. split; [reflexivity|].
  simpl in Hvalid. unfold bounded, canonical_mantissa, fexp, emin in Hvalid.
  apply andb_true_iff in Hvalid as [Hcan _].
  apply Z.eqb_eq in Hcan. unfold fexp, emin in Hcan.
  change prec with 53%Z in Hcan. change emax with 1024%Z in Hcan. lia.
Qed.

Lemma in_range_cases (x : float) :
  in_range x = true → zero x ∨ ∃ e, normal x e ∧ (-952 <= e <= 848)%Z.
Proof.
  unfold in_range. rewrite orb_true_iff.
  intros [H|H]; [left; apply is_zero_zero | right; apply leb_range_normal];
    exact H.
Qed.

Lemma mul_zero (x f : float) e : zero x → normal f e → zero (x * f)%float.
Proof.
  intros [s Hx] (sf & m & Hf & _). unfold zero.
  rewrite mul_spec, Hx, Hf. simpl. eauto.
Qed.

Lemma div_zero (x f : float) e : zero x → normal f e → zero (x / f)%float.
Proof.
  intros [s Hx] (sf & m & Hf & _). unfold zero.
  rewrite div_spec, Hx, Hf. simpl. eauto.
Qed.

Lemma zero_B2R (x : float) : zero x → B2R x = 0.
Proof. intros [s Hx]. unfold B2R. rewrite Hx. reflexivity. Qed.

Lemma zero_finite (x : float) : zero x → finite x.
Proof. intros [s Hx]. unfold finite. rewrite Hx. reflexivity. Qed.

Lemma normal_finite (x : float) e : normal x e → finite x.
Proof. intros (s & m & Hx & _). unfold finite. rewrite Hx. reflexivity. Qed.

(** [x * f / f]: two roundings. *)
Theorem same_unit_normal (x f : float) ex ef :
  normal x ex → normal f ef →
  (-952 <= ex <= 848)%Z → (-63 <= ef <= -12)%Z →
  ∃ e', normal (x * f / f)%float e'
        ∧ Rabs (B2R (x * f / f)%float - B2R x)
          <= 3 * bpow (-53) * Rabs (B2R x).
Proof.
  intros Hx Hf Hex Hef.
  destruct (mul_normal x f ex ef Hx Hf) as (e1 & H1 & He1 & Herr1); try lia.
  destruct (div_normal _ f e1 ef H1 Hf) as (e2 & H2 & He2 & Herr2); try lia.
  exists e2. split; [exact H2|].
  pose proof (normal_nonzero f ef Hf) as HF.
  set (X := B2R x) in *. set (F := B2R f) in *.
  set (u := bpow (-53)) in *.
  assert (0 < u <= / 1000000000000000) as Hu.
  { unfold u. rewrite bpow_m53. split.
    - apply Rinv_0_lt_compat. lra.
    - apply Rinv_le_contravar; lra. }
  unfold Rdiv in *.
  pose proof (rel_err_step (X * F) _ _ (/ F) u u ltac:(lra) ltac:(lra)
                Herr1 Herr2) as S2.
  replace (X * F * / F) with X in S2 by (field; assumption).
  eapply Rle_trans; [exact S2|].
  apply Rmult_le_compat_r; [apply Rabs_pos | nra].
Qed.

(** *** Multiplying and dividing by [1.0] is exact *)

Lemma IZR_small (z : Z) : Rabs (IZR z) <= / 2 → z = 0%Z.
Proof.
  intros H.
  assert (- / 2 <= IZR z <= / 2) as [H1 H2].
  { unfold Rabs in H. destruct (Rcase_abs (IZR z)); lra. }
  assert (-1 < z < 1)%Z; [|lia].
  split; apply lt_IZR; lra.
Qed.

(** A 53-bit float within half an ulp of another one, in the same binade
    or the next, is that float. *)
Lemma round_exact (m' mx : positive) (e' ex : Z) :
  Z.pos (digits2_pos mx) = 53%Z → Z.pos (digits2_pos m') = 53%Z →
  (ex <= e' <= ex + 1)%Z →
  Rabs (IZR (Z.pos m') * bpow e' - IZR (Z.pos mx) * bpow ex) <= bpow (ex - 1) →
  m' = mx ∧ e' = ex.
Proof.
  intros Hdx Hd' He Herr.
  pose proof (mantissa_bounds mx Hdx) as Hbx.
  pose proof (mantissa_bounds m' Hd') as Hb'.
  change (2 ^ 52)%Z with 4503599627370496%Z in *.
  change (2 ^ 53)%Z with 9007199254740992%Z in *.
  pose proof (bpow_pos ex) as HB.
  replace (ex - 1)%Z with (-1 + ex)%Z in Herr by lia.
  rewrite bpow_add, bpow_m1 in Herr.
  assert (e' = ex ∨ e' = (1 + ex)%Z) as [->| ->] by lia.
  - rewrite <- Rmult_minus_distr_r, Rabs_mult in Herr.
    rewrite (Rabs_pos_eq (bpow ex)) in Herr by lra.
    rewrite <- minus_IZR in Herr.
    assert (Z.pos m' - Z.pos mx = 0)%Z as H0 by (apply IZR_small; nra).
    split; [lia | reflexivity].
  - exfalso. rewrite bpow_add, bpow_1 in Herr.
    replace (IZR (Z.pos m') * (2 * bpow ex) - IZR (Z.pos mx) * bpow ex)
      with (IZR (2 * Z.pos m' - Z.pos mx) * bpow ex) in Herr
      by (rewrite minus_IZR, mult_IZR; ring).
    rewrite Rabs_mult, (Rabs_pos_eq (bpow ex)) in Herr by lra.
    assert (2 * Z.pos m' - Z.pos mx = 0)%Z as H0 by (apply IZR_small; nra).
    lia.
Qed.

Lemma SFmul_one s m e :
  Z.pos (digits2_pos m) = 53%Z → (-1073 <= e <= 970)%Z →
  SFmul 53 1024 (S754_finite s m e) SFone64 = S754_finite s m e.
Proof.
  intros Hd He.
  pose proof (mantissa_bounds m Hd) as Hb.
  change (2 ^ 52)%Z with 4503599627370496%Z in *.
  change (2 ^ 53)%Z with 9007199254740992%Z in *.
  unfold SFone64. simpl SFmul. rewrite xorb_false_r.
  assert (Zdigits2 (Z.pos (m * 4503599627370496)) = 105%Z) as Hdig.
  { assert (105 <= Zdigits2 (Z.pos (m * 4503599627370496)) <= 105)%Z; [|lia].
    apply Zdigits2_range; [lia|].
    change (2 ^ (105 - 1))%Z with (4503599627370496 * 4503599627370496)%Z.
    change (2 ^ 105)%Z with (9007199254740992 * 4503599627370496)%Z.
    rewrite Pos2Z.inj_mul. lia. }
  assert (represents
            (shr_record_of_loc (Z.pos (m * 4503599627370496)) loc_Exact)
            (IZR (Z.pos (m * 4503599627370496)))) as Hrep.
  { split; simpl; [lia | reflexivity]. }
  destruct (binary_round_aux_normal s (Z.pos (m * 4503599627370496)) (e + -52)
              loc_Exact _ 105 ltac:(lia) Hrep Hdig)
    as (m' & e' & Heq & Hd' & He' & Herr); try lia.
  rewrite Heq.
  replace (IZR (Z.pos (m * 4503599627370496)) * bpow (e + -52))
    with (IZR (Z.pos m) * bpow e) in Herr.
  2:{ rewrite Pos2Z.inj_mul, mult_IZR, bpow_add, Rmult_assoc. f_equal.
      rewrite (Rmult_comm (bpow e)), <- Rmult_assoc.
      change 4503599627370496%Z with (2 ^ 52)%Z.
      rewrite IZR_pow2 by lia. rewrite <- bpow_add.
      change (52 + -52)%Z with 0%Z. rewrite bpow_0. ring. }
  replace (e + -52 + 105 - 54)%Z with (e - 1)%Z in Herr by lia.
  destruct (round_exact m' m e' e Hd Hd' ltac:(lia) Herr) as [-> ->].
  reflexivity.
Qed.

Lemma SFdiv_one s m e :
  Z.pos (digits2_pos m) = 53%Z → (-1073 <= e <= 970)%Z →
  SFdiv 53 1024 (S754_finite s m e) SFone64 = S754_finite s m e.
Proof.
  intros Hd He.
  pose proof (mantissa_bounds m Hd) as Hb.
  change (2 ^ 52)%Z with 4503599627370496%Z in *.
  change (2 ^ 53)%Z with 9007199254740992%Z in *.
  unfold SFone64. simpl SFdiv. rewrite xorb_false_r.
  destruct (SFdiv_core_binary_normal m e 4503599627370496 (-52) Hd eq_refl
              ltac:(lia)) as (q & r & Hcore & Hqr & Hr).
  change (2 ^ 53)%Z with 9007199254740992%Z in Hqr.
  assert (r = 0%Z ∧ q = (2 * Z.pos m)%Z) as [-> ->] by lia.
  rewrite Hcore.
  change (new_location (Z.pos 4503599627370496) 0) with loc_Exact.
  assert (Zdigits2 (2 * Z.pos m) = 54%Z) as Hdig.
  { assert (54 <= Zdigits2 (2 * Z.pos m) <= 54)%Z; [|lia].
    apply Zdigits2_range; [lia|].
    change (2 ^ (54 - 1))%Z with 9007199254740992%Z.
    change (2 ^ 54)%Z with 18014398509481984%Z. lia. }
  assert (represents (shr_record_of_loc (2 * Z.pos m) loc_Exact)
            (IZR (2 * Z.pos m))) as Hrep.
  { split; simpl; [lia | reflexivity]. }
  destruct (binary_round_aux_normal s (2 * Z.pos m) (e - -52 - 53)
              loc_Exact _ 54 ltac:(lia) Hrep Hdig)
    as (m' & e' & Heq & Hd' & He' & Herr); try lia.
  rewrite Heq.
  replace (IZR (2 * Z.pos m) * bpow (e - -52 - 53))
    with (IZR (Z.pos m) * bpow e) in Herr.
  2:{ rewrite mult_IZR.
      replace (e - -52 - 53)%Z with (-1 + e)%Z by lia.
      rewrite bpow_add, bpow_m1. field. }
  replace (e - -52 - 53 + 54 - 54)%Z with (e - 1)%Z in Herr by lia.
  destruct (round_exact m' m e' e Hd Hd' ltac:(lia) Herr) as [-> ->].
  reflexivity.
Qed.

(** [x * 1.0 / 1.0] is [x]. *)
Theorem mul_div_one_exact (x : float) :
  in_range x = true → (x * 1 / 1)%float = x.
Proof.
  intros H. apply Prim2SF_inj.
  rewrite div_spec, mul_spec.
  change (Prim2SF 1) with SFone64.
  apply in_range_cases in H as [[s Hz]|(e & (s & m & Hx & Hd) & He)].
  - rewrite Hz. simpl. rewrite !xorb_false_r. reflexivity.
  - rewrite Hx.
    unfold SF64mul, SF64div. change prec with 53%Z. change emax with 1024%Z.
    rewrite SFmul_one, SFdiv_one by (assumption || lia). reflexivity.
Qed.

End Binary64.

(** ** Conversions there and back *)

Lemma CONVERSION_FACTORS_items_in_range :
  Forall (λ kv, factor_in_range kv.2 = true) CONVERSION_FACTORS_items.
Proof.
  unfold CONVERSION_FACTORS_items.
  repeat (constructor; [vm_compute; reflexivity|]).
  constructor.
Qed.

Lemma CONVERSION_FACTORS_normal (u : string) (f : float) :
  CONVERSION_FACTORS !! u = Some f →
  ∃ e, normal f e ∧ (-63 <= e <= -12)%Z.
Proof.
  intros Hu%CONVERSION_FACTORS_lookup.
  pose proof CONVERSION_FACTORS_items_in_range as HF.
  rewrite Forall_forall in HF. specialize (HF _ Hu). simpl in HF.
  unfold factor_in_range in HF. unfold normal, normal_sf.
  destruct (Prim2SF f) as [s|s| |s m e]; try discriminate.
  destruct s; [discriminate|].
  apply andb_true_iff in HF as [HF H3]. apply andb_true_iff in HF as [H1 H2].
  exists e. split; [exists false, m; split; [reflexivity | lia] | lia].
Qed.

Lemma base_units_have_factor_one (name b : string) :
  CATEGORY_BASE_UNITS !! name = Some (Some b) →
  CONVERSION_FACTORS !! b = Some 1%float.
Proof.
  intros H%elem_of_list_to_map_2.
  unfold CATEGORY_BASE_UNITS_items in H.
  rewrite !elem_of_cons, elem_of_nil in H.
  repeat (destruct H as [H|H]; [simplify_eq; reflexivity|]).
  destruct H.
Qed.

(** C5, as the specification states it, fails at both ends of the double
    range.  The smallest positive double, converted from metres to
    kilometres, underflows to [0.0] and comes back as [0.0]; the double
    [1e308], converted from kilometres to metres, overflows to infinity
    and stays there. *)
Lemma round_trip_underflow_overflow :
  same_category "meter" "kilometer"
  ∧ convert_unit 5e-324 "meter" "kilometer" initial_st
    = (Return 0%float, initial_st)
  ∧ convert_unit 0 "kilometer" "meter" initial_st
    = (Return 0%float, initial_st)
  ∧ ¬ within_tolerance (/ 1000000000) 0 5e-324
  ∧ convert_unit 1e308 "kilometer" "meter" initial_st
    = (Return infinity, initial_st)
  ∧ convert_unit infinity "meter" "kilometer" initial_st
    = (Return infinity, initial_st)
  ∧ ¬ within_tolerance (/ 1000000000) infinity 1e308.
Proof.
  split.
  { exists "Length",
      {| units := ["meter"; "kilometer"; "centimeter"; "millimeter"; "mile";
                   "yard"; "foot"; "inch"];
         symbol := "📏"; color := "#FF5757" |}.
    split; [reflexivity | split; set_solver]. }
  split; [reflexivity|]. split; [reflexivity|]. split.
  { intros [_ H]. unfold B2R in H.
    change (Prim2SF 0) with (S754_zero false) in H.
    change (Prim2SF 5e-324) with (S754_finite false 1 (-1074)) in H.
    unfold SF2R in H. pose proof (bpow_pos (-1074)) as Hpos.
    rewrite Rminus_0_l, Rabs_Ropp in H.
    rewrite Rabs_pos_eq in H by lra. lra. }
  split; [reflexivity|]. split; [reflexivity|].
  intros [H _]. vm_compute in H. discriminate H.
Qed.

(** C5, amended: for any two units of the factor table (those of one
    linear category among them) and every double [x] that is zero or has
    [2^-900 <= |x| <= 2^900], both conversions return, and the value that
    comes back is finite and within [1e-9] of [x], relatively. *)
Theorem round_trip_within_tolerance (x : float) (u v : string)
    (f_u f_v : float) (st : Streamlit) :
  CONVERSION_FACTORS !! u = Some f_u →
  CONVERSION_FACTORS !! v = Some f_v →
  in_range x = true →
  ∃ y z,
    convert_unit x u v st = (Return y, st)
    ∧ convert_unit y v u st = (Return z, st)
    ∧ within_tolerance (/ 1000000000) z x.
Proof.
  intros Hu Hv Hx.
  exists (x * f_u / f_v)%float, (x * f_u / f_v * f_v / f_u)%float.
  split; [apply convert_unit_factor_path; assumption|].
  split; [apply convert_unit_factor_path; assumption|].
  destruct (CONVERSION_FACTORS_normal _ _ Hu) as (eu & Hnu & Heu).
  destruct (CONVERSION_FACTORS_normal _ _ Hv) as (ev & Hnv & Hev).
  apply in_range_cases in Hx as [Hz|(ex & Hnx & Hex)].
  - assert (zero (x * f_u / f_v * f_v / f_u)%float) as Hz'.
    { eapply div_zero; [|exact Hnu]. eapply mul_zero; [|exact Hnv].
      eapply div_zero; [|exact Hnv]. eapply mul_zero; [|exact Hnu].
      exact Hz. }
    split; [apply zero_finite; exact Hz'|].
    rewrite (zero_B2R _ Hz), (zero_B2R _ Hz').
    rewrite Rminus_0_r, Rabs_R0. lra.
  - destruct (round_trip_normal x f_u f_v ex eu ev Hnx Hnu Hnv Hex Heu Hev)
      as (e' & Hn' & Herr).
    split; [eapply normal_finite; exact Hn' | exact Herr].
Qed.

Lemma round_trip_within_tolerance_witness :
  ∃ y z,
    convert_unit 2.5 "kilometer" "mile" initial_st = (Return y, initial_st)
    ∧ convert_unit y "mile" "kilometer" initial_st = (Return z, initial_st)
    ∧ within_tolerance (/ 1000000000) z 2.5.
Proof.
  apply (round_trip_within_tolerance 2.5 "kilometer" "mile" 1000.0 1609.344
           initial_st); reflexivity.
Defined.

(** ** Converting a unit to itself *)

Lemma catalog_unit_celsius : catalog_unit "celsius".
Proof.
  exists "Temperature",
    {| units := ["kelvin"; "celsius"; "fahrenheit"];
       symbol := "🌡️"; color := "#FF9800" |}.
  split; [reflexivity | set_solver].
Qed.

Lemma catalog_unit_foot : catalog_unit "foot".
Proof.
  exists "Length",
    {| units := ["meter"; "kilometer"; "centimeter"; "millimeter"; "mile";
                 "yard"; "foot"; "inch"];
       symbol := "📏"; color := "#FF5757" |}.
  split; [reflexivity | set_solver].
Qed.

(** C4, as the specification states it, fails: 0.1 °C converted to celsius
    comes back from kelvin as 0.10000000000002274, and 7 feet converted to
    feet come back from metres as 6.999999999999999. *)
Lemma convert_unit_same_unit_drifts :
  catalog_unit "celsius"
  ∧ convert_unit 0.1 "celsius" "celsius" initial_st
    = (Return 0.10000000000002274%float, initial_st)
  ∧ ¬ returns_equal (convert_unit 0.1 "celsius" "celsius") initial_st 0.1
  ∧ catalog_unit "foot"
  ∧ convert_unit 7 "foot" "foot" initial_st
    = (Return 6.999999999999999%float, initial_st)
  ∧ ¬ returns_equal (convert_unit 7 "foot" "foot") initial_st 7.
Proof.
  split; [exact catalog_unit_celsius|]. split; [reflexivity|]. split.
  { intros (r & Hr & Heq). vm_compute in Hr. injection Hr as <-.
    vm_compute in Heq. discriminate Heq. }
  split; [exact catalog_unit_foot|]. split; [reflexivity|].
  intros (r & Hr & Heq). vm_compute in Hr. injection Hr as <-.
  vm_compute in Heq. discriminate Heq.
Qed.

(** C4, amended: [convert_unit(x, u, u)] is [x] itself for kelvin, and for
    the base unit of each linear category (factor 1.0) when [x] is zero or
    [2^-900 <= |x| <= 2^900].  For any other unit [u] of the factor table
    it is [x * f / f], which for such [x] is finite and within [3 * 2^-53]
    of [x], relatively, but need not be [x]; for celsius and fahrenheit it
    is the round trip through kelvin, with its roundings. *)
Theorem convert_unit_same_unit (x : float) (st : Streamlit) :
  convert_unit x "kelvin" "kelvin" st = (Return x, st)
  ∧ convert_unit x "celsius" "celsius" st
    = (Return (x + 273.15 - 273.15)%float, st)
  ∧ convert_unit x "fahrenheit" "fahrenheit" st
    = (Return (((x - 32) * 5 / 9 + 273.15 - 273.15) * 9 / 5 + 32)%float, st)
  ∧ (∀ u f, CONVERSION_FACTORS !! u = Some f →
       convert_unit x u u st = (Return (x * f / f)%float, st)
       ∧ (in_range x = true →
          within_tolerance (3 * bpow (-53)) (x * f / f)%float x))
  ∧ (∀ name b, CATEGORY_BASE_UNITS !! name = Some (Some b) →
       in_range x = true → convert_unit x b b st = (Return x, st)).
Proof.
  split; [reflexivity|]. split; [reflexivity|]. split; [reflexivity|].
  split.
  - intros u f Hu.
    split; [apply convert_unit_factor_path; assumption|].
    intros Hx.
    destruct (CONVERSION_FACTORS_normal _ _ Hu) as (ef & Hnf & Hef).
    apply in_range_cases in Hx as [Hz|(ex & Hnx & Hex)].
    + assert (zero (x * f / f)%float) as Hz'.
      { eapply div_zero; [|exact Hnf]. eapply mul_zero; [|exact Hnf].
        exact Hz. }
      split; [apply zero_finite; exact Hz'|].
      rewrite (zero_B2R _ Hz), (zero_B2R _ Hz').
      rewrite Rminus_0_r, Rabs_R0. lra.
    + destruct (same_unit_normal x f ex ef Hnx Hnf Hex Hef)
        as (e' & Hn' & Herr).
      split; [eapply normal_finite; exact Hn' | exact Herr].
  - intros name b Hb Hx.
    apply base_units_have_factor_one in Hb.
    rewrite (convert_unit_factor_path x b b 1 1 st Hb Hb).
    rewrite (mul_div_one_exact x Hx). reflexivity.
Qed.

Lemma convert_unit_same_unit_witness :
  (convert_unit 7 "foot" "foot" initial_st
   = (Return (7 * 0.3048 / 0.3048)%float, initial_st)
   ∧ within_tolerance (3 * bpow (-53)) (7 * 0.3048 / 0.3048)%float 7)
  ∧ convert_unit 7 "meter" "meter" initial_st = (Return 7%float, initial_st).
Proof.
  destruct (convert_unit_same_unit 7 initial_st) as (_ & _ & _ & H4 & H5).
  split.
  - destruct (H4 "foot" 0.3048%float eq_refl) as [Heq Htol].
    split; [exact Heq | apply Htol; reflexivity].
  - apply (H5 "Length" "meter"); reflexivity.
Defined.

(** * More properties of the catalog and of [convert_unit] *)

(** ** The three dictionaries against each other *)

Lemma CONVERSION_CATEGORIES_keys_NoDup :
  NoDup (CONVERSION_CATEGORIES_items.*1).
Proof. apply (bool_decide_unpack _). vm_compute. exact I. Qed.

Lemma catalog_unit_of_listed (u : string) :
  u ∈ catalog_units → catalog_unit u.
Proof.
  unfold catalog_units. rewrite list_elem_of_join.
  intros (l & Hu & Hl). apply list_elem_of_fmap in Hl as ([name c] & -> & Hc).
  exists name, c. split; [|exact Hu].
  apply elem_of_list_to_map_1; [exact CONVERSION_CATEGORIES_keys_NoDup|exact Hc].
Qed.

Lemma CONVERSION_FACTORS_keys_listed :
  Forall (λ kv, kv.1 ∈ catalog_units ∧ kv.1 ∉ temperature_units)
    CONVERSION_FACTORS_items.
Proof. apply (bool_decide_unpack _). vm_compute. exact I. Qed.

(** X1: the keys of the factor table are exactly the units of the catalog
    that are not temperature units: no unit lacks a factor and no factor
    belongs to a unit the catalog does not list. *)
Theorem factor_keys_are_linear_units (u : string) :
  is_Some (CONVERSION_FACTORS !! u)
  ↔ catalog_unit u ∧ u ∉ temperature_units.
Proof.
  split.
  - intros [f Hf%CONVERSION_FACTORS_lookup].
    pose proof CONVERSION_FACTORS_keys_listed as HF.
    rewrite Forall_forall in HF. destruct (HF _ Hf) as [Hin Hnot].
    split; [apply catalog_unit_of_listed; exact Hin | exact Hnot].
  - intros [Hc Hn]. apply catalog_unit_has_factor; assumption.
Qed.

Lemma factor_keys_are_linear_units_witness :
  is_Some (CONVERSION_FACTORS !! "psi")
  ↔ catalog_unit "psi" ∧ "psi" ∉ temperature_units.
Proof. apply (factor_keys_are_linear_units "psi"). Defined.

Lemma catalog_units_NoDup : NoDup catalog_units.
Proof. apply (bool_decide_unpack _). vm_compute. exact I. Qed.

Lemma categories_disjoint :
  Forall (λ nc1 : string * Category,
    Forall (λ nc2 : string * Category,
      Forall (λ u, u ∈ units nc2.2 → nc1.1 = nc2.1) (units nc1.2))
      CONVERSION_CATEGORIES_items)
    CONVERSION_CATEGORIES_items.
Proof. apply (bool_decide_unpack _). vm_compute. exact I. Qed.

(** X2: a unit identifier belongs to one category only, and the catalog
    lists no unit twice. *)
Theorem unit_in_one_category (u name1 name2 : string) (c1 c2 : Category) :
  CONVERSION_CATEGORIES !! name1 = Some c1 → u ∈ units c1 →
  CONVERSION_CATEGORIES !! name2 = Some c2 → u ∈ units c2 →
  name1 = name2 ∧ NoDup catalog_units.
Proof.
  intros H1%elem_of_list_to_map_2 Hu1 H2%elem_of_list_to_map_2 Hu2.
  split; [|exact catalog_units_NoDup].
  pose proof categories_disjoint as HF.
  rewrite Forall_forall in HF. specialize (HF _ H1).
  rewrite Forall_forall in HF. specialize (HF _ H2).
  rewrite Forall_forall in HF. exact (HF _ Hu1 Hu2).
Qed.

Lemma unit_in_one_category_witness :
  "Mass" = "Mass" ∧ NoDup catalog_units.
Proof.
  apply (unit_in_one_category "pound" "Mass" "Mass"
           {| units := ["gram"; "kilogram"; "milligram"; "pound"; "ounce";
                        "ton"];
              symbol := "⚖️"; color := "#4CAF50" |}
           {| units := ["gram"; "kilogram"; "milligram"; "pound"; "ounce";
                        "ton"];
              symbol := "⚖️"; color := "#4CAF50" |});
    first [reflexivity | set_solver].
Defined.

Lemma base_units_consistent :
  Forall (λ nc : string * Category,
    (nc.1 = "Temperature" ∧ CATEGORY_BASE_UNITS !! nc.1 = Some None)
    ∨ ∃ b, CATEGORY_BASE_UNITS !! nc.1 = Some (Some b)
           ∧ b ∈ units nc.2 ∧ is_Some (CONVERSION_FACTORS !! b))
    CONVERSION_CATEGORIES_items.
Proof.
  unfold CONVERSION_CATEGORIES_items.
  repeat (constructor;
          [first [left; split; reflexivity
                 | right; eexists; split; [reflexivity|];
                   split; [set_solver | eexists; reflexivity]]|]).
  constructor.
Qed.

(** X3: [CATEGORY_BASE_UNITS] agrees with the other two dictionaries: it
    has an entry for every category; for Temperature the entry is [None];
    for any other category it names a unit of that category whose factor
    is [1.0]. *)
Theorem base_unit_of_category (name : string) (c : Category) :
  CONVERSION_CATEGORIES !! name = Some c →
  (name = "Temperature" ∧ CATEGORY_BASE_UNITS !! name = Some None)
  ∨ ∃ b, CATEGORY_BASE_UNITS !! name = Some (Some b)
         ∧ b ∈ units c ∧ CONVERSION_FACTORS !! b = Some 1%float.
Proof.
  intros H%elem_of_list_to_map_2.
  pose proof base_units_consistent as HF.
  rewrite Forall_forall in HF.
  destruct (HF _ H) as [Ht|(b & Hb & Hin & _)]; [left; exact Ht|].
  right. exists b. repeat split; try assumption.
  eapply base_units_have_factor_one. exact Hb.
Qed.

Lemma base_unit_of_category_witness :
  ("Data" = "Temperature" ∧ CATEGORY_BASE_UNITS !! "Data" = Some None)
  ∨ ∃ b, CATEGORY_BASE_UNITS !! "Data" = Some (Some b)
         ∧ b ∈ ["bit"; "byte"; "kilobyte"; "megabyte"; "gigabyte";
                "terabyte"]
         ∧ CONVERSION_FACTORS !! b = Some 1%float.
Proof.
  apply (base_unit_of_category "Data"
           {| units := ["bit"; "byte"; "kilobyte"; "megabyte"; "gigabyte";
                        "terabyte"];
              symbol := "💾"; color := "#00BCD4" |}).
  reflexivity.
Defined.

(** ** When [convert_unit] shows an error *)

Lemma categories_convertible :
  Forall (λ nc : string * Category,
    Forall (λ u, u ∈ temperature_units) (units nc.2)
    ∨ Forall (λ u, is_Some (CONVERSION_FACTORS !! u)) (units nc.2))
    CONVERSION_CATEGORIES_items.
Proof. apply (bool_decide_unpack _). vm_compute. exact I. Qed.

Lemma same_category_convertible (u v : string) :
  same_category u v → convertible u v.
Proof.
  intros (name & c & Hc%elem_of_list_to_map_2 & Hu & Hv).
  pose proof categories_convertible as HF.
  rewrite Forall_forall in HF.
  destruct (HF _ Hc) as [H|H]; rewrite Forall_forall in H; simpl in H;
    [left | right]; split; apply H; assumption.
Qed.

Lemma convertible_returns (value : float) (from_unit to_unit : string)
    (st : Streamlit) :
  convertible from_unit to_unit →
  ∃ r, convert_unit value from_unit to_unit st = (Return r, st).
Proof.
  intros [[Hf Ht]|[[f_from Hf] [f_to Ht]]].
  - apply temperature_units_names in Hf as [u ->].
    apply temperature_units_names in Ht as [v ->].
    eexists. unfold convert_unit, try_except.
    rewrite convert_unit_try_temperature by apply unit_name_temperature.
    rewrite temperature_path_spec. reflexivity.
  - eexists. apply convert_unit_factor_path; eassumption.
Qed.

(** X4: a conversion between two units of one category never fails: for
    every category of the catalog and any two of its units [convert_unit]
    returns a value and shows no error box. *)
Theorem same_category_converts (value : float) (u v : string)
    (st : Streamlit) :
  same_category u v →
  ∃ r, convert_unit value u v st = (Return r, st).
Proof.
  intros H. apply convertible_returns, same_category_convertible, H.
Qed.

Lemma same_category_yard_mile : same_category "yard" "mile".
Proof.
  exists "Length",
    {| units := ["meter"; "kilometer"; "centimeter"; "millimeter"; "mile";
                 "yard"; "foot"; "inch"];
       symbol := "📏"; color := "#FF5757" |}.
  split; [reflexivity | split; set_solver].
Defined.

Lemma same_category_converts_witness :
  ∃ r, convert_unit 3 "yard" "mile" initial_st = (Return r, initial_st).
Proof.
  apply (same_category_converts 3 "yard" "mile" initial_st).
  exact same_category_yard_mile.
Defined.

Lemma not_convertible_missing (from_unit to_unit : string) :
  ¬ convertible from_unit to_unit →
  (from_unit ∉ temperature_units ∨ to_unit ∉ temperature_units)
  ∧ ∃ key, missing_key from_unit to_unit = Some key
           ∧ (key = from_unit ∨ key = to_unit)
           ∧ CONVERSION_FACTORS !! key = None.
Proof.
  intros Hn. unfold convertible in Hn. split.
  - destruct (decide (from_unit ∈ temperature_units)) as [Hf|Hf];
      [|left; exact Hf].
    destruct (decide (to_unit ∈ temperature_units)) as [Ht|Ht];
      [|right; exact Ht].
    exfalso. apply Hn. left. split; assumption.
  - unfold missing_key.
    destruct (CONVERSION_FACTORS !! from_unit) as [f_from|] eqn:Hf.
    + destruct (CONVERSION_FACTORS !! to_unit) as [f_to|] eqn:Ht.
      * exfalso. apply Hn. right. split; eexists; reflexivity.
      * exists to_unit. split; [reflexivity|]. split; [right; reflexivity|].
        exact Ht.
    + exists from_unit. split; [reflexivity|]. split; [left; reflexivity|].
      exact Hf.
Qed.

(** X5: what [convert_unit] can do is one of two things.  When both units
    are temperature units, or both have a factor, it returns a value and
    shows nothing; otherwise it shows exactly one error, a [KeyError] on
    one of its two unit arguments, and returns [0.0].  It never raises,
    never divides by zero, and never changes the session state. *)
Theorem convert_unit_outcome (value : float) (from_unit to_unit : string)
    (st : Streamlit) :
  (convertible from_unit to_unit →
     ∃ r, convert_unit value from_unit to_unit st = (Return r, st))
  ∧ (¬ convertible from_unit to_unit →
       ∃ key, (key = from_unit ∨ key = to_unit)
              ∧ CONVERSION_FACTORS !! key = None
              ∧ convert_unit value from_unit to_unit st
                = (Return 0%float,
                   show_error (Conversion_error (KeyError key)) st))
  ∧ ∃ r st', convert_unit value from_unit to_unit st = (Return r, st')
             ∧ session_state st' = session_state st.
Proof.
  split; [apply convertible_returns|]. split.
  - intros Hn.
    destruct (not_convertible_missing _ _ Hn)
      as (Hlin & key & Hkey & Hwhich & Hnone).
    exists key. repeat split; try assumption.
    apply convert_unit_catches.
    rewrite convert_unit_try_linear by exact Hlin.
    apply linear_path_missing. exact Hkey.
  - destruct (convert_unit_value_spec value from_unit to_unit st)
      as (st' & Heq & Hss).
    eauto.
Qed.

Lemma convert_unit_outcome_witness :
  (∃ r, convert_unit 5 "kelvin" "celsius" initial_st = (Return r, initial_st))
  ∧ ∃ key, (key = "gram" ∨ key = "kelvin")
           ∧ CONVERSION_FACTORS !! key = None
           ∧ convert_unit 5 "gram" "kelvin" initial_st
             = (Return 0%float,
                show_error (Conversion_error (KeyError key)) initial_st).
Proof.
  split.
  - apply (convert_unit_outcome 5 "kelvin" "celsius" initial_st).
    left. split; set_solver.
  - apply (convert_unit_outcome 5 "gram" "kelvin" initial_st).
    intros [[H _]|[_ [f H]]].
    + apply (not_temperature_unit "gram" eq_refl H).
    + vm_compute in H. discriminate H.
Defined.

(** ** More on the factor path in binary64 *)

Lemma temperature_units_are_the_category :
  Forall (λ nc : string * Category,
    nc.1 = "Temperature" →
    ∀ u, u ∈ temperature_units ↔ u ∈ units nc.2)
    CONVERSION_CATEGORIES_items.
Proof.
  unfold CONVERSION_CATEGORIES_items, temperature_units.
  repeat (constructor;
          [simpl; intros H;
           first [discriminate H
                 | intros u; rewrite !elem_of_cons, !elem_of_nil; tauto]|]).
  constructor.
Qed.

(** X6: the three names that [convert_unit] tests for are exactly the
    units that the catalog lists under Temperature. *)
Theorem temperature_units_category (c : Category) (u : string) :
  CONVERSION_CATEGORIES !! "Temperature" = Some c →
  u ∈ temperature_units ↔ u ∈ units c.
Proof.
  intros H%elem_of_list_to_map_2.
  pose proof temperature_units_are_the_category as HF.
  rewrite Forall_forall in HF.
  exact (HF _ H eq_refl u).
Qed.

Lemma temperature_units_category_witness :
  "kelvin" ∈ temperature_units ↔ "kelvin" ∈ ["kelvin"; "celsius"; "fahrenheit"].
Proof.
  apply (temperature_units_category
           {| units := ["kelvin"; "celsius"; "fahrenheit"];
              symbol := "🌡️"; color := "#FF9800" |} "kelvin").
  reflexivity.
Defined.

Lemma CONVERSION_FACTORS_items_unit :
  Forall (λ kv, (1 * kv.2 / 1)%float = kv.2 ∧ (kv.2 * 1 / kv.2)%float = 1%float)
    CONVERSION_FACTORS_items.
Proof.
  unfold CONVERSION_FACTORS_items.
  repeat (constructor; [split; reflexivity|]).
  constructor.
Qed.

(** X7: the factor of a unit is what one of it is worth in base units, and
    that is what the code computes, exactly: for a unit [u] with factor [f]
    and the base unit [b] of a category, [convert_unit(1.0, u, b)] returns
    [f] and [convert_unit(f, b, u)] returns [1.0]. *)
Theorem base_unit_property (name b u : string) (f : float) (st : Streamlit) :
  CATEGORY_BASE_UNITS !! name = Some (Some b) →
  CONVERSION_FACTORS !! u = Some f →
  convert_unit 1 u b st = (Return f, st)
  ∧ convert_unit f b u st = (Return 1%float, st).
Proof.
  intros Hb%base_units_have_factor_one Hu.
  pose proof CONVERSION_FACTORS_items_unit as HF.
  rewrite Forall_forall in HF.
  destruct (HF _ (CONVERSION_FACTORS_lookup _ _ Hu)) as [H1 H2]. simpl in *.
  rewrite (convert_unit_factor_path 1 u b f 1 st Hu Hb).
  rewrite (convert_unit_factor_path f b u 1 f st Hb Hu).
  rewrite H1, H2. split; reflexivity.
Qed.

Lemma base_unit_property_witness :
  convert_unit 1 "mile" "meter" initial_st = (Return 1609.344%float, initial_st)
  ∧ convert_unit 1609.344 "meter" "mile" initial_st
    = (Return 1%float, initial_st).
Proof.
  apply (base_unit_property "Length" "meter" "mile" 1609.344 initial_st);
    reflexivity.
Defined.

Section Binary64_more.

Local Open Scope R_scope.

(** *** Negation commutes with [*] and [/] *)

Lemma binary_round_aux_opp s m e l :
  binary_round_aux 53 1024 (negb s) m e l
  = SFopp (binary_round_aux 53 1024 s m e l).
Proof.
  unfold binary_round_aux.
  destruct (shr_fexp 53 1024 m e l) as [mrs' e'].
  destruct (shr_fexp 53 1024 _ e' loc_Exact) as [mrs'' e''].
  destruct (shr_m mrs'') as [|p|p]; try reflexivity.
  destruct (e'' <=? 1024 - 53)%Z; reflexivity.
Qed.

Lemma xorb_negb_l a b : xorb (negb a) b = negb (xorb a b).
Proof. destruct a, b; reflexivity. Qed.

Lemma SFmul_opp_l x y :
  SFmul 53 1024 (SFopp x) y = SFopp (SFmul 53 1024 x y).
Proof.
  destruct x as [sx|sx| |sx mx ex], y as [sy|sy| |sy my ey]; simpl;
    rewrite ?xorb_negb_l; try reflexivity.
  apply binary_round_aux_opp.
Qed.

Lemma SFdiv_opp_l x y :
  SFdiv 53 1024 (SFopp x) y = SFopp (SFdiv 53 1024 x y).
Proof.
  destruct x as [sx|sx| |sx mx ex], y as [sy|sy| |sy my ey]; simpl;
    rewrite ?xorb_negb_l; try reflexivity.
  destruct (SFdiv_core_binary 53 1024 (Z.pos mx) ex (Z.pos my) ey)
    as [[mz ez] lz].
  apply binary_round_aux_opp.
Qed.

Lemma mul_opp_l (x y : float) : (- x * y)%float = (- (x * y))%float.
Proof.
  apply Prim2SF_inj. rewrite mul_spec, !opp_spec, mul_spec.
  apply SFmul_opp_l.
Qed.

Lemma div_opp_l (x y : float) : (- x / y)%float = (- (x / y))%float.
Proof.
  apply Prim2SF_inj. rewrite div_spec, !opp_spec, div_spec.
  apply SFdiv_opp_l.
Qed.

(** *** Two conversions in a row *)

(** [x * f / g * g / h] against [x * f / h]. *)
Theorem two_conversions_normal (x f g h : float) ex ef eg eh :
  normal x ex → normal f ef → normal g eg → normal h eh →
  (-952 <= ex <= 848)%Z → (-63 <= ef <= -12)%Z → (-63 <= eg <= -12)%Z →
  (-63 <= eh <= -12)%Z →
  ∃ e1 e2,
    normal (x * f / g * g / h)%float e1 ∧ normal (x * f / h)%float e2
    ∧ Rabs (B2R (x * f / g * g / h)%float - B2R (x * f / h)%float)
      <= / 1000000000 * Rabs (B2R (x * f / h)%float).
Proof.
  intros Hx Hf Hg Hh Hex Hef Heg Heh.
  destruct (mul_normal x f ex ef Hx Hf) as (e1 & H1 & He1 & Herr1); try lia.
  destruct (div_normal _ g e1 eg H1 Hg) as (e2 & H2 & He2 & Herr2); try lia.
  destruct (mul_normal _ g e2 eg H2 Hg) as (e3 & H3 & He3 & Herr3); try lia.
  destruct (div_normal _ h e3 eh H3 Hh) as (e4 & H4 & He4 & Herr4); try lia.
  destruct (div_normal _ h e1 eh H1 Hh) as (e5 & H5 & He5 & Herr5); try lia.
  exists e4, e5. split; [exact H4|]. split; [exact H5|].
  pose proof (normal_nonzero g eg Hg) as HG.
  pose proof (normal_nonzero h eh Hh) as HH.
  set (X := B2R x) in *. set (F := B2R f) in *. set (G := B2R g) in *.
  set (H := B2R h) in *.
  set (u := bpow (-53)) in *.
  assert (0 < u <= / 1000000000000000) as Hu.
  { unfold u. rewrite bpow_m53. split.
    - apply Rinv_0_lt_compat. lra.
    - apply Rinv_le_contravar; lra. }
  unfold Rdiv in *.
  pose proof (rel_err_step (X * F) _ _ (/ G) u u ltac:(lra) ltac:(lra)
                Herr1 Herr2) as S2.
  set (u2 := u + u + u * u) in *.
  assert (0 <= u2 <= 3 * / 1000000000000000) as Hu2 by (unfold u2; nra).
  pose proof (rel_err_step (X * F * / G) _ _ G u2 u ltac:(lra) ltac:(lra)
                S2 Herr3) as S3.
  set (u3 := u2 + u + u2 * u) in *.
  assert (0 <= u3 <= 5 * / 1000000000000000) as Hu3 by (unfold u3; nra).
  pose proof (rel_err_step (X * F * / G * G) _ _ (/ H) u3 u ltac:(lra)
                ltac:(lra) S3 Herr4) as S4.
  set (u4 := u3 + u + u3 * u) in *.
  assert (0 <= u4 <= 7 * / 1000000000000000) as Hu4 by (unfold u4; nra).
  replace (X * F * / G * G * / H) with (X * F * / H) in S4
    by (field; split; assumption).
  pose proof (rel_err_step (X * F) _ _ (/ H) u u ltac:(lra) ltac:(lra)
                Herr1 Herr5) as S5.
  fold u2 in S5.
  set (Z := B2R (x * f / g * g / h)%float) in *.
  set (D := B2R (x * f / h)%float) in *.
  set (E := X * F * / H) in *.
  pose proof (Rabs_pos E) as HE.
  assert (Rabs (Z - E) <= 7 * / 1000000000000000 * Rabs E) as SZ by nra.
  assert (Rabs (D - E) <= 3 * / 1000000000000000 * Rabs E) as SD by nra.
  assert (Rabs (Z - D) <= Rabs (Z - E) + Rabs (D - E)) as T1.
  { replace (Z - D) with ((Z - E) + - (D - E)) by ring.
    eapply Rle_trans; [apply Rabs_triang|]. rewrite Rabs_Ropp. lra. }
  assert (Rabs E <= Rabs D + Rabs (D - E)) as T2.
  { replace E with (D + - (D - E)) at 1 by ring.
    eapply Rle_trans; [apply Rabs_triang|]. rewrite Rabs_Ropp. lra. }
  pose proof (Rabs_pos D). lra.
Qed.

End Binary64_more.

(** X8: on the factor path the sign of the value passes through
    unchanged: negating the argument negates what [convert_unit]
    returns (a NaN stays a NaN). *)
Theorem convert_unit_negated (value : float) (u v : string) (f_u f_v : float)
    (st : Streamlit) :
  CONVERSION_FACTORS !! u = Some f_u →
  CONVERSION_FACTORS !! v = Some f_v →
  ∃ r, convert_unit value u v st = (Return r, st)
       ∧ convert_unit (- value) u v st = (Return (- r)%float, st).
Proof.
  intros Hu Hv. exists (value * f_u / f_v)%float.
  rewrite !(convert_unit_factor_path _ u v f_u f_v st Hu Hv).
  rewrite mul_opp_l, div_opp_l. split; reflexivity.
Qed.

Lemma convert_unit_negated_witness :
  ∃ r, convert_unit 12 "inch" "foot" initial_st = (Return r, initial_st)
       ∧ convert_unit (- 12) "inch" "foot" initial_st
         = (Return (- r)%float, initial_st).
Proof.
  apply (convert_unit_negated 12 "inch" "foot" 0.0254 0.3048 initial_st);
    reflexivity.
Defined.

(** X9: converting in two steps agrees with converting in one: for units
    [u], [v], [w] of the factor table and a double [x] that is zero or has
    [2^-900 <= |x| <= 2^900], going from [u] to [v] and on to [w] gives a
    finite value within [1e-9], relatively, of going from [u] to [w]. *)
Theorem two_steps_within_tolerance (x : float) (u v w : string)
    (f_u f_v f_w : float) (st : Streamlit) :
  CONVERSION_FACTORS !! u = Some f_u →
  CONVERSION_FACTORS !! v = Some f_v →
  CONVERSION_FACTORS !! w = Some f_w →
  in_range x = true →
  ∃ y z d,
    convert_unit x u v st = (Return y, st)
    ∧ convert_unit y v w st = (Return z, st)
    ∧ convert_unit x u w st = (Return d, st)
    ∧ within_tolerance (/ 1000000000) z d.
Proof.
  intros Hu Hv Hw Hx.
  exists (x * f_u / f_v)%float, (x * f_u / f_v * f_v / f_w)%float,
    (x * f_u / f_w)%float.
  split; [apply convert_unit_factor_path; assumption|].
  split; [apply convert_unit_factor_path; assumption|].
  split; [apply convert_unit_factor_path; assumption|].
  destruct (CONVERSION_FACTORS_normal _ _ Hu) as (eu & Hnu & Heu).
  destruct (CONVERSION_FACTORS_normal _ _ Hv) as (ev & Hnv & Hev).
  destruct (CONVERSION_FACTORS_normal _ _ Hw) as (ew & Hnw & Hew).
  apply in_range_cases in Hx as [Hz|(ex & Hnx & Hex)].
  - assert (zero (x * f_u)%float) as Hz1
      by (eapply mul_zero; [exact Hz | exact Hnu]).
    assert (zero (x * f_u / f_v * f_v / f_w)%float) as Hz'.
    { eapply div_zero; [|exact Hnw]. eapply mul_zero; [|exact Hnv].
      eapply div_zero; [|exact Hnv]. exact Hz1. }
    assert (zero (x * f_u / f_w)%float) as Hd
      by (eapply div_zero; [exact Hz1 | exact Hnw]).
    split; [apply zero_finite; exact Hz'|].
    rewrite (zero_B2R _ Hd), (zero_B2R _ Hz').
    rewrite Rminus_0_r, Rabs_R0. lra.
  - destruct (two_conversions_normal x f_u f_v f_w ex eu ev ew
                Hnx Hnu Hnv Hnw Hex Heu Hev Hew)
      as (e1 & e2 & Hn1 & Hn2 & Herr).
    split; [eapply normal_finite; exact Hn1 | exact Herr].
Qed.

Lemma two_steps_within_tolerance_witness :
  ∃ y z d,
    convert_unit 2.5 "mile" "kilometer" initial_st = (Return y, initial_st)
    ∧ convert_unit y "kilometer" "foot" initial_st = (Return z, initial_st)
    ∧ convert_unit 2.5 "mile" "foot" initial_st = (Return d, initial_st)
    ∧ within_tolerance (/ 1000000000) z d.
Proof.
  apply (two_steps_within_tolerance 2.5 "mile" "kilometer" "foot"
           1609.344 1000.0 0.3048 initial_st); reflexivity.
Defined.

(** ** More on [update_result] and the handlers *)

(** All that one call of [update_result] does. *)
Lemma update_result_spec (now : string) (st : Streamlit) :
  ∃ st1,
    convert_unit (input_value (session_state st))
      (from_unit (session_state st)) (to_unit (session_state st)) st
    = (Return (convert_unit_value (input_value (session_state st))
                 (from_unit (session_state st)) (to_unit (session_state st))),
       st1)
    ∧ session_state st1 = session_state st
    ∧ update_result_try now st
      = (Return tt,
         {| session_state :=
              set_conversion_history
                (slice_last 10
                   (conversion_history (session_state st)
                    ++ [recorded_entry now (session_state st)]))
                (set_result
                   (convert_unit_value (input_value (session_state st))
                      (from_unit (session_state st))
                      (to_unit (session_state st)))
                   (session_state st));
            errors := errors st1 |}).
Proof.
  destruct (convert_unit_value_spec (input_value (session_state st))
              (from_unit (session_state st)) (to_unit (session_state st)) st)
    as (st1 & Hconv & Hss).
  exists st1. split; [exact Hconv|]. split; [exact Hss|].
  unfold update_result_try.
  unfold mbind, Py_bind at 1 2.
  unfold get_session_state at 1, py_float, mret, Py_ret.
  unfold Py_bind at 1. rewrite Hconv.
  unfold Py_bind, modify_session_state, get_session_state. simpl.
  rewrite Hss. unfold recorded_entry.
  destruct (10 <? _)%nat eqn:Hlen; simpl.
  - reflexivity.
  - apply Nat.ltb_ge in Hlen. rewrite slice_last_short by exact Hlen.
    reflexivity.
Qed.

Lemma update_result_try_is_update_result (now : string) (st : Streamlit) :
  update_result now st = update_result_try now st.
Proof.
  destruct (update_result_spec now st) as (st1 & _ & _ & Heq).
  unfold update_result, try_except. rewrite Heq. reflexivity.
Qed.

Lemma last_slice_last {A : Type} (n : nat) (l : list A) (x : A) :
  0 < n → last (slice_last n (l ++ [x])) = Some x.
Proof.
  intros Hn. unfold slice_last. rewrite length_app. simpl.
  rewrite drop_app_le by lia.
  rewrite last_app. simpl.
  replace (drop (length l + 1 - n - length l) [x]) with [x]; [reflexivity|].
  replace (length l + 1 - n - length l) with 0 by lia. reflexivity.
Qed.

(** The fields of the session after [update_result]. *)
Lemma update_result_session (now : string) (st : Streamlit) :
  let ss := session_state st in
  let ss' := session_state (exec (update_result now) st) in
  result ss' = convert_unit_value (input_value ss) (from_unit ss) (to_unit ss)
  ∧ input_value ss' = input_value ss
  ∧ from_unit ss' = from_unit ss
  ∧ to_unit ss' = to_unit ss
  ∧ current_category ss' = current_category ss
  ∧ theme ss' = theme ss.
Proof.
  intros ss ss'. subst ss ss'. unfold exec.
  rewrite update_result_try_is_update_result.
  destruct (update_result_spec now st) as (st1 & _ & _ & ->). simpl.
  repeat split.
Qed.

(** X10: after [update_result] the session shows the conversion of its
    inputs: [result] is what [convert_unit] returns for [input_value],
    [from_unit] and [to_unit]; these three, the category and the theme
    are as before; and the newest record of the history holds the inputs,
    the time and that result. *)
Theorem update_result_postcondition (now : string) (st : Streamlit) :
  let ss := session_state st in
  let ss' := session_state (exec (update_result now) st) in
  result ss' = convert_unit_value (input_value ss) (from_unit ss) (to_unit ss)
  ∧ input_value ss' = input_value ss
  ∧ from_unit ss' = from_unit ss
  ∧ to_unit ss' = to_unit ss
  ∧ current_category ss' = current_category ss
  ∧ theme ss' = theme ss
  ∧ last (conversion_history ss')
    = Some {| History.timestamp := now;
              History.category := current_category ss;
              History.from_value := input_value ss;
              History.from_unit := from_unit ss;
              History.to_value := result ss';
              History.to_unit := to_unit ss |}.
Proof.
  intros ss ss'. subst ss ss'. unfold exec.
  rewrite update_result_try_is_update_result.
  destruct (update_result_spec now st) as (st1 & _ & _ & ->). simpl.
  repeat split.
  apply (last_slice_last 10). lia.
Qed.

(** X11: the only error box [update_result] can cause is the one of
    [convert_unit], a [KeyError] on a unit; it always returns, and none of
    its own three [except] branches is ever taken. *)
Theorem update_result_errors (now : string) (st : Streamlit) :
  ∃ st',
    update_result_try now st = (Return tt, st')
    ∧ update_result now st = (Return tt, st')
    ∧ (errors st' = errors st
       ∨ ∃ key, errors st'
                = (errors st ++ [Conversion_error (KeyError key)])%list).
Proof.
  destruct (update_result_spec now st) as (st1 & Hconv & _ & Htry).
  eexists. split; [exact Htry|].
  split; [rewrite update_result_try_is_update_result; exact Htry|].
  simpl.
  destruct (decide (convertible (from_unit (session_state st))
                      (to_unit (session_state st)))) as [Hc|Hn].
  - left.
    destruct (convertible_returns (input_value (session_state st)) _ _ st Hc)
      as [r Hr].
    rewrite Hr in Hconv. injection Hconv as _ <-. reflexivity.
  - right.
    destruct (not_convertible_missing _ _ Hn)
      as (Hlin & key & Hkey & _ & _).
    exists key.
    rewrite (convert_unit_catches (input_value (session_state st))
               _ _ (KeyError key) st) in Hconv.
    + injection Hconv as _ <-. reflexivity.
    + rewrite convert_unit_try_linear by exact Hlin.
      apply linear_path_missing. exact Hkey.
Qed.

Lemma recorded_entry_consistent (now : string) (ss : SessionState) :
  entry_consistent (recorded_entry now ss).
Proof. reflexivity. Qed.

Lemma action_entry_consistent (a : Action) : entry_consistent (action_entry a).
Proof. reflexivity. Qed.

Lemma slice_last_Forall {A : Type} (P : A → Prop) (n : nat) (l : list A) :
  Forall P l → Forall P (slice_last n l).
Proof. apply Forall_drop. Qed.

(** X12: the history stays consistent.  If every record holds, as its
    [to_value], what [convert_unit] returns for its [from_value] and its
    two units, then so does every record after [update_result], and after
    any sequence of user actions; from the empty history this is always
    so. *)
Theorem history_consistent (now : string) (acts : list Action)
    (st : Streamlit) :
  Forall entry_consistent (history st) →
  Forall entry_consistent (history (exec (update_result now) st))
  ∧ Forall entry_consistent (history (foldl perform st acts)).
Proof.
  intros H. split.
  - rewrite update_result_history. apply slice_last_Forall.
    apply Forall_app. split; [exact H|].
    constructor; [apply recorded_entry_consistent | constructor].
  - revert st H. induction acts as [|a acts IH]; intros st H; simpl.
    + exact H.
    + apply IH. rewrite perform_history. apply slice_last_Forall.
      apply Forall_app. split; [exact H|].
      constructor; [apply action_entry_consistent | constructor].
Qed.

Lemma history_consistent_witness :
  Forall entry_consistent
    (history (exec (update_result "2023-01-01 00:00:00") initial_st))
  ∧ Forall entry_consistent (history (foldl perform initial_st fifteen_actions)).
Proof.
  apply (history_consistent "2023-01-01 00:00:00" fifteen_actions initial_st).
  constructor.
Defined.

(** *** [on_category_change] *)

Lemma categories_first_two :
  Forall (λ nc : string * Category,
    ∃ first second rest,
      units nc.2 = first :: second :: rest ∧ first ≠ second)
    CONVERSION_CATEGORIES_items.
Proof.
  unfold CONVERSION_CATEGORIES_items.
  repeat (constructor;
          [eexists _, _, _; split; [reflexivity | discriminate]|]).
  constructor.
Qed.

(** [on_category_change] on a category of the catalog. *)
Lemma on_category_change_known (now : string) (st : Streamlit)
    (data : Category) :
  CONVERSION_CATEGORIES !! current_category (session_state st) = Some data →
  ∃ first second st',
    on_category_change now st = (None, st')
    ∧ units data !! 0 = Some first ∧ units data !! 1 = Some second
    ∧ first ≠ second
    ∧ from_unit (session_state st') = first
    ∧ to_unit (session_state st') = second
    ∧ result (session_state st')
      = convert_unit_value (input_value (session_state st)) first second
    ∧ current_category (session_state st')
      = current_category (session_state st)
    ∧ errors st' = errors st.
Proof.
  intros Hdata.
  pose proof categories_first_two as HF. rewrite Forall_forall in HF.
  destruct (HF _ (elem_of_list_to_map_2 _ _ _ Hdata))
    as (first & second & rest & Hunits & Hneq).
  simpl in Hunits.
  assert (convertible first second) as Hconv.
  { apply same_category_convertible.
    exists (current_category (session_state st)), data.
    split; [exact Hdata|]. rewrite Hunits. split; set_solver. }
  unfold on_category_change. rewrite Hdata, Hunits. simpl.
  set (st2 := {| session_state :=
                   set_to_unit second
                     (set_from_unit first (session_state st));
                 errors := errors st |}).
  rewrite (update_result_try_is_update_result now st2).
  destruct (update_result_spec now st2) as (st1 & Hc & _ & ->).
  destruct (convertible_returns (input_value (session_state st2))
              (from_unit (session_state st2)) (to_unit (session_state st2))
              st2 Hconv) as [r Hr].
  rewrite Hr in Hc. injection Hc as _ <-.
  eexists first, second, _. split; [reflexivity|]. simpl.
  repeat split; assumption.
Qed.

(** X13: [on_category_change] on a category of the catalog returns
    normally, selects the first two units of that category, which differ,
    stores their conversion as the result and shows no error; on any other
    category name it raises the [KeyError] of the lookup and leaves the
    session as it was.  It never ends with an [IndexError]. *)
Theorem on_category_change_outcome (now : string) (st : Streamlit) :
  let name := current_category (session_state st) in
  (∀ data, CONVERSION_CATEGORIES !! name = Some data →
     ∃ first second st',
       on_category_change now st = (None, st')
       ∧ units data !! 0 = Some first ∧ units data !! 1 = Some second
       ∧ first ≠ second
       ∧ from_unit (session_state st') = first
       ∧ to_unit (session_state st') = second
       ∧ result (session_state st')
         = convert_unit_value (input_value (session_state st)) first second
       ∧ current_category (session_state st') = name
       ∧ errors st' = errors st)
  ∧ (CONVERSION_CATEGORIES !! name = None →
       on_category_change now st = (Some (Uncaught (KeyError name)), st))
  ∧ (on_category_change now st).1 ≠ Some IndexError.
Proof.
  intros name. subst name.
  split; [intros data; apply on_category_change_known|]. split.
  - intros Hnone. unfold on_category_change. rewrite Hnone. reflexivity.
  - destruct (CONVERSION_CATEGORIES !! current_category (session_state st))
      as [data|] eqn:Hdata.
    + destruct (on_category_change_known now st data Hdata)
        as (first & second & st' & -> & _).
      discriminate.
    + unfold on_category_change. rewrite Hdata. discriminate.
Qed.

Lemma on_category_change_outcome_witness :
  ∃ first second st',
    on_category_change "2023-01-01 00:00:00" initial_st = (None, st')
    ∧ ["meter"; "kilometer"; "centimeter"; "millimeter"; "mile"; "yard";
       "foot"; "inch"] !! 0 = Some first
    ∧ ["meter"; "kilometer"; "centimeter"; "millimeter"; "mile"; "yard";
       "foot"; "inch"] !! 1 = Some second
    ∧ first ≠ second
    ∧ from_unit (session_state st') = first
    ∧ to_unit (session_state st') = second
    ∧ result (session_state st') = convert_unit_value 1 first second
    ∧ current_category (session_state st') = "Length"
    ∧ errors st' = [].
Proof.
  destruct (on_category_change_outcome "2023-01-01 00:00:00" initial_st)
    as (H & _ & _).
  apply (H {| units := ["meter"; "kilometer"; "centimeter"; "millimeter";
                        "mile"; "yard"; "foot"; "inch"];
              symbol := "📏"; color := "#FF5757" |}).
  reflexivity.
Defined.

(** *** [swap_units] and [toggle_theme] *)

Lemma swap_units_spec (now : string) (st : Streamlit) :
  swap_units now st
  = update_result now
      {| session_state :=
           set_to_unit (from_unit (session_state st))
             (set_from_unit (to_unit (session_state st)) (session_state st));
         errors := errors st |}.
Proof. reflexivity. Qed.

(** X14: [swap_units] exchanges the two units and stores the conversion
    in the new direction; swapping twice gives back the units and the
    result of the original direction, and leaves the value, the category
    and the theme alone. *)
Theorem swap_units_twice (now now' : string) (st : Streamlit) :
  let ss := session_state st in
  let ss1 := session_state (exec (swap_units now) st) in
  let ss2 := session_state (exec (swap_units now') (exec (swap_units now) st)) in
  (from_unit ss1 = to_unit ss ∧ to_unit ss1 = from_unit ss
   ∧ result ss1
     = convert_unit_value (input_value ss) (to_unit ss) (from_unit ss))
  ∧ (from_unit ss2 = from_unit ss ∧ to_unit ss2 = to_unit ss
     ∧ result ss2
       = convert_unit_value (input_value ss) (from_unit ss) (to_unit ss))
  ∧ input_value ss2 = input_value ss
  ∧ current_category ss2 = current_category ss
  ∧ theme ss2 = theme ss.
Proof.
  intros ss ss1 ss2. subst ss ss1 ss2. unfold exec.
  rewrite !swap_units_spec.
  set (st1 := {| session_state :=
                   set_to_unit (from_unit (session_state st))
                     (set_from_unit (to_unit (session_state st))
                        (session_state st));
                 errors := errors st |}).
  pose proof (update_result_session now st1) as H1.
  unfold exec in H1. simpl in H1.
  destruct H1 as (Hr1 & Hi1 & Hf1 & Ht1 & Hc1 & Hth1).
  set (st1' := (update_result now st1).2) in *.
  set (st2 := {| session_state :=
                   set_to_unit (from_unit (session_state st1'))
                     (set_from_unit (to_unit (session_state st1'))
                        (session_state st1'));
                 errors := errors st1' |}).
  pose proof (update_result_session now' st2) as H2.
  unfold exec in H2. simpl in H2.
  destruct H2 as (Hr2 & Hi2 & Hf2 & Ht2 & Hc2 & Hth2).
  rewrite Hr2, Hi2, Hf2, Ht2, Hc2, Hth2, Hi1, Hf1, Ht1, Hc1, Hth1, Hr1.
  repeat split.
Qed.

Lemma toggle_theme_spec (st : Streamlit) :
  toggle_theme st
  = (Return tt,
     {| session_state :=
          set_theme (if String.eqb (theme (session_state st)) "light"
                     then "dark" else "light") (session_state st);
        errors := errors st |}).
Proof. reflexivity. Qed.

(** X15: [toggle_theme] changes the theme and nothing else; whatever the
    theme was, afterwards it is ["light"] or ["dark"]; and from one of
    these two, toggling twice gives back the very same state. *)
Theorem toggle_theme_twice (st : Streamlit) :
  (theme (session_state (exec toggle_theme st)) = "light"
   ∨ theme (session_state (exec toggle_theme st)) = "dark")
  ∧ set_theme (theme (session_state st))
      (session_state (exec toggle_theme st)) = session_state st
  ∧ errors (exec toggle_theme st) = errors st
  ∧ (theme (session_state st) = "light" ∨ theme (session_state st) = "dark" →
     exec toggle_theme (exec toggle_theme st) = st).
Proof.
  unfold exec. rewrite !toggle_theme_spec.
  destruct st as [[cat v f t r h th] errs]. simpl.
  split; [destruct (String.eqb th "light"); auto|].
  split; [reflexivity|]. split; [reflexivity|].
  intros [-> | ->]; reflexivity.
Qed.

Lemma toggle_theme_twice_witness :
  exec toggle_theme (exec toggle_theme initial_st) = initial_st.
Proof.
  apply (toggle_theme_twice initial_st). left. reflexivity.
Defined.

(** ** Display names, menu labels and animations *)

Ltac each_ascii c :=
  destruct c as [[] [] [] [] [] [] [] []].

Lemma is_cased_to_lower c : is_cased (to_lower c) = is_cased c.
Proof. each_ascii c; reflexivity. Qed.

Lemma is_cased_to_upper c : is_cased (to_upper c) = is_cased c.
Proof. each_ascii c; reflexivity. Qed.

Lemma to_lower_idem c : to_lower (to_lower c) = to_lower c.
Proof. each_ascii c; reflexivity. Qed.

Lemma to_upper_idem c : to_upper (to_upper c) = to_upper c.
Proof. each_ascii c; reflexivity. Qed.

Lemma title_char_not_underscore (p : bool) c :
  c ≠ "_"%char → (if p then to_lower c else to_upper c) ≠ "_"%char.
Proof. destruct p; each_ascii c; intros H; first [discriminate | exact H]. Qed.

Lemma identifier_char_round_trip (p : bool) c :
  is_upper c = false → c ≠ " "%char →
  (let d := if Ascii.eqb c "_" then " "%char else c in
   let t := if p then to_lower d else to_upper d in
   if Ascii.eqb t " " then "_"%char else to_lower t) = c.
Proof.
  destruct p; each_ascii c; intros H1 H2;
    first [reflexivity | discriminate H1 | destruct (H2 eq_refl)].
Qed.

Lemma title_from_idem s : ∀ p, title_from p (title_from p s) = title_from p s.
Proof.
  induction s as [|c s IH]; intros p; simpl; [reflexivity|].
  destruct p.
  - rewrite to_lower_idem, is_cased_to_lower, IH. reflexivity.
  - rewrite to_upper_idem, is_cased_to_upper, IH. reflexivity.
Qed.

Lemma length_title_from s : ∀ p, String.length (title_from p s) = String.length s.
Proof. induction s as [|c s IH]; intros p; simpl; [|rewrite IH]; reflexivity. Qed.

Lemma length_str_replace a b s :
  String.length (str_replace a b s) = String.length s.
Proof. induction s as [|c s IH]; simpl; [|rewrite IH]; reflexivity. Qed.

Lemma str_replace_absent a b s :
  Forall (λ c, c ≠ a) (String.list_ascii_of_string s) → str_replace a b s = s.
Proof.
  induction s as [|c s IH]; simpl; intros H; [reflexivity|].
  apply Forall_cons in H as [Hc Hs].
  destruct (Ascii.eqb_spec c a) as [->|_]; [destruct (Hc eq_refl)|].
  rewrite IH by exact Hs. reflexivity.
Qed.

Lemma str_replace_underscore_absent s :
  Forall (λ c, c ≠ "_"%char)
    (String.list_ascii_of_string (str_replace "_" " " s)).
Proof.
  induction s as [|c s IH]; simpl; constructor; [|exact IH].
  destruct (Ascii.eqb_spec c "_") as [->|H]; [discriminate | exact H].
Qed.

Lemma title_from_underscore_absent s : ∀ p,
  Forall (λ c, c ≠ "_"%char) (String.list_ascii_of_string s) →
  Forall (λ c, c ≠ "_"%char) (String.list_ascii_of_string (title_from p s)).
Proof.
  induction s as [|c s IH]; intros p H; simpl; [constructor|].
  apply Forall_cons in H as [Hc Hs].
  constructor; [apply title_char_not_underscore; exact Hc | apply IH; exact Hs].
Qed.

(** X16: on ASCII text [get_display_name] keeps the length of its
    argument, leaves no underscore in its result, and is idempotent: a
    display name displays as itself. *)
Theorem get_display_name_stable (unit : string) :
  ascii_only unit →
  String.length (get_display_name unit) = String.length unit
  ∧ Forall (λ c, c ≠ "_"%char)
      (String.list_ascii_of_string (get_display_name unit))
  ∧ get_display_name (get_display_name unit) = get_display_name unit.
Proof.
  intros _. unfold get_display_name, str_title.
  pose proof (title_from_underscore_absent _ false
                (str_replace_underscore_absent unit)) as Habsent.
  split; [rewrite length_title_from, length_str_replace; reflexivity|].
  split; [exact Habsent|].
  rewrite (str_replace_absent _ _ _ Habsent). apply title_from_idem.
Qed.

Lemma ascii_only_square_foot : ascii_only "square_foot".
Proof. unfold ascii_only. simpl. repeat constructor. Defined.

Lemma get_display_name_stable_witness :
  String.length (get_display_name "square_foot") = 11
  ∧ Forall (λ c, c ≠ "_"%char)
      (String.list_ascii_of_string (get_display_name "square_foot"))
  ∧ get_display_name (get_display_name "square_foot")
    = get_display_name "square_foot".
Proof.
  apply (get_display_name_stable "square_foot" ascii_only_square_foot).
Defined.

Lemma identifier_of_display_title s : ∀ p,
  identifier s →
  identifier_of_display (title_from p (str_replace "_" " " s)) = s.
Proof.
  induction s as [|c s IH]; intros p H; simpl; [reflexivity|].
  apply Forall_cons in H as [[Hup Hsp] Hs].
  rewrite (IH _ Hs). f_equal.
  exact (identifier_char_round_trip p c Hup Hsp).
Qed.

(** X17: [get_display_name] loses nothing of an identifier: on ASCII
    strings without upper-case letters and without spaces, as all unit
    identifiers are, lower-casing the display name and putting the
    underscores back gives the identifier again, so two identifiers with
    the same display name are the same. *)
Theorem get_display_name_injective (u v : string) :
  ascii_only u → ascii_only v → identifier u → identifier v →
  identifier_of_display (get_display_name u) = u
  ∧ (get_display_name u = get_display_name v → u = v).
Proof.
  intros _ _ Hu Hv.
  pose proof (identifier_of_display_title u false Hu) as Ru.
  pose proof (identifier_of_display_title v false Hv) as Rv.
  split; [exact Ru|].
  unfold get_display_name, str_title. intros Heq.
  rewrite <- Ru, <- Rv, Heq. reflexivity.
Qed.

Lemma identifier_square_foot : identifier "square_foot".
Proof. unfold identifier. simpl. repeat constructor; discriminate. Defined.

Lemma get_display_name_injective_witness :
  identifier_of_display (get_display_name "square_foot") = "square_foot"
  ∧ (get_display_name "square_foot" = get_display_name "square_foot" →
     "square_foot" = "square_foot").
Proof.
  apply (get_display_name_injective "square_foot" "square_foot"
           ascii_only_square_foot ascii_only_square_foot
           identifier_square_foot identifier_square_foot).
Defined.

(** *** The unit boxes *)

Lemma list_index_fmap (f : string → string) (l : list string) :
  NoDup (f <$> l) →
  ∀ i u, l !! i = Some u → list_index (f u) (f <$> l) = Some i.
Proof.
  induction l as [|y l IH]; intros Hnd i u Hi; [discriminate Hi|].
  rewrite fmap_cons in Hnd. apply NoDup_cons in Hnd as [Hy Hnd].
  rewrite fmap_cons. cbn [list_index].
  destruct i as [|i].
  - injection Hi as ->. rewrite String.eqb_refl. reflexivity.
  - change ((y :: l) !! S i) with (l !! i) in Hi.
    destruct (String.eqb_spec (f y) (f u)) as [Heq|_].
    + exfalso. apply Hy. rewrite Heq.
      apply list_elem_of_fmap_2. eapply list_elem_of_lookup_2. exact Hi.
    + rewrite (IH Hnd i u Hi). reflexivity.
Qed.

Lemma categories_display_NoDup :
  Forall (λ nc : string * Category, NoDup (display_units (units nc.2)))
    CONVERSION_CATEGORIES_items.
Proof. apply (bool_decide_unpack _). vm_compute. exact I. Qed.

(** X18: the unit boxes of [main] read back the unit they show: within a
    category no two units share a display name, so for every unit [u] of a
    category [units[display_units.index(get_display_name(u))]] is [u]. *)
Theorem selected_unit_round_trip (name u : string) (data : Category) :
  CONVERSION_CATEGORIES !! name = Some data →
  u ∈ units data →
  NoDup (display_units (units data))
  ∧ selected_unit (units data) (get_display_name u) = Some u.
Proof.
  intros Hdata%elem_of_list_to_map_2 Hu.
  pose proof categories_display_NoDup as HF. rewrite Forall_forall in HF.
  pose proof (HF _ Hdata) as Hnd. simpl in Hnd.
  split; [exact Hnd|].
  apply list_elem_of_lookup_1 in Hu as [i Hi].
  unfold selected_unit, display_units.
  rewrite (list_index_fmap get_display_name _ Hnd i u Hi). simpl. exact Hi.
Qed.

Lemma selected_unit_round_trip_witness :
  NoDup (display_units ["pascal"; "kilopascal"; "bar"; "atmosphere"; "psi"])
  ∧ selected_unit ["pascal"; "kilopascal"; "bar"; "atmosphere"; "psi"]
      (get_display_name "bar") = Some "bar".
Proof.
  apply (selected_unit_round_trip "Pressure" "bar"
           {| units := ["pascal"; "kilopascal"; "bar"; "atmosphere"; "psi"];
              symbol := "🔄"; color := "#3F51B5" |}).
  - reflexivity.
  - set_solver.
Defined.

(** *** The category menu *)

Lemma str_split_1_no_sep (sep : Ascii.ascii) (s : string) :
  Forall (λ c, c ≠ sep) (String.list_ascii_of_string s) →
  str_split_1 sep s = [s].
Proof.
  induction s as [|c s IH]; simpl; intros H; [reflexivity|].
  apply Forall_cons in H as [Hc Hs].
  destruct (Ascii.eqb_spec c sep) as [->|_]; [destruct (Hc eq_refl)|].
  rewrite (IH Hs). reflexivity.
Qed.

Lemma str_split_1_app (sep : Ascii.ascii) (s t : string) :
  Forall (λ c, c ≠ sep) (String.list_ascii_of_string s) →
  str_split_1 sep (s ++ String sep t) = [s; t].
Proof.
  induction s as [|c s IH]; simpl; intros H.
  - rewrite Ascii.eqb_refl. reflexivity.
  - apply Forall_cons in H as [Hc Hs].
    destruct (Ascii.eqb_spec c sep) as [->|_]; [destruct (Hc eq_refl)|].
    rewrite (IH Hs). reflexivity.
Qed.

Lemma categories_symbols_no_space :
  Forall (λ nc : string * Category,
    Forall (λ c, c ≠ " "%char) (String.list_ascii_of_string (symbol nc.2)))
    CONVERSION_CATEGORIES_items.
Proof.
  unfold CONVERSION_CATEGORIES_items.
  repeat (constructor; [simpl; repeat constructor; discriminate|]).
  constructor.
Qed.

(** X19: the menu of [main] reads back the category it shows.  A label
    made of a symbol without a space, a space and a name is split into the
    name, whatever the name contains; every symbol of the catalog is such a
    symbol; and a label without any space has no second part: the subscript
    raises [IndexError]. *)
Theorem selected_category_round_trip :
  (∀ cat data,
     Forall (λ c, c ≠ " "%char) (String.list_ascii_of_string (symbol data)) →
     selected_category_name (menu_option cat data) = Some cat)
  ∧ (∀ name data, CONVERSION_CATEGORIES !! name = Some data →
       selected_category_name (menu_option name data) = Some name)
  ∧ (∀ label,
       Forall (λ c, c ≠ " "%char) (String.list_ascii_of_string label) →
       selected_category_name label = None).
Proof.
  assert (∀ cat data,
     Forall (λ c, c ≠ " "%char) (String.list_ascii_of_string (symbol data)) →
     selected_category_name (menu_option cat data) = Some cat) as Hgen.
  { intros cat data H. unfold selected_category_name, menu_option.
    change (" " ++ cat)%string with (String " " cat).
    rewrite (str_split_1_app " " _ cat H). reflexivity. }
  split; [exact Hgen|]. split.
  - intros name data Hd%elem_of_list_to_map_2. apply Hgen.
    pose proof categories_symbols_no_space as HF. rewrite Forall_forall in HF.
    exact (HF _ Hd).
  - intros label H. unfold selected_category_name.
    rewrite (str_split_1_no_sep " " label H). reflexivity.
Qed.

Lemma selected_category_round_trip_witness :
  selected_category_name
    (menu_option "Energy"
       {| units := ["joule"; "kilojoule"; "calorie"; "kilocalorie";
                    "watt_hour"; "kilowatt_hour"];
          symbol := "⚡"; color := "#FFEB3B" |}) = Some "Energy"
  ∧ selected_category_name "Energy" = None.
Proof.
  destruct selected_category_round_trip as (_ & H2 & H3).
  split.
  - apply (H2 "Energy"). reflexivity.
  - apply (H3 "Energy"). simpl. repeat constructor; discriminate.
Defined.

(** *** Animations *)

Lemma animations_keys :
  animations_items.*1 = CONVERSION_CATEGORIES_items.*1.
Proof. reflexivity. Qed.

Lemma animations_dedicated :
  Forall (λ kv : string * string,
    get_animation_url kv.1 = kv.2 ∧ kv.2 ≠ default_animation
    ∧ Forall (λ kv' : string * string, kv.2 = kv'.2 → kv.1 = kv'.1)
        animations_items)
    animations_items.
Proof. apply (bool_decide_unpack _). vm_compute. exact I. Qed.

(** X20: [get_animation_url] never fails.  Every category of the catalog
    has an animation of its own, different from the default one and from
    that of any other category; any other name gets the default. *)
Theorem get_animation_url_cases (name : string) :
  (is_Some (CONVERSION_CATEGORIES !! name) →
     animations !! name = Some (get_animation_url name)
     ∧ get_animation_url name ≠ default_animation
     ∧ ∀ name', is_Some (CONVERSION_CATEGORIES !! name') →
         get_animation_url name = get_animation_url name' → name = name')
  ∧ (CONVERSION_CATEGORIES !! name = None →
       get_animation_url name = default_animation).
Proof.
  assert (∀ n, is_Some (CONVERSION_CATEGORIES !! n) →
            ∃ url, (n, url) ∈ animations_items ∧ animations !! n = Some url)
    as Hentry.
  { intros n [data Hd%elem_of_list_to_map_2].
    assert (n ∈ animations_items.*1) as Hin.
    { rewrite animations_keys. apply list_elem_of_fmap.
      exists (n, data). split; [reflexivity | exact Hd]. }
    apply list_elem_of_fmap in Hin as ([n' url] & -> & Hin).
    exists url. split; [exact Hin|].
    apply elem_of_list_to_map_1; [|exact Hin].
    rewrite animations_keys. exact CONVERSION_CATEGORIES_keys_NoDup. }
  pose proof animations_dedicated as HF. rewrite Forall_forall in HF.
  split.
  - intros Hn. destruct (Hentry name Hn) as (url & Hin & Hlook).
    destruct (HF _ Hin) as (Hurl & Hdef & Hinj). simpl in *.
    split; [rewrite Hurl; exact Hlook|]. split; [rewrite Hurl; exact Hdef|].
    intros name' Hn' Heq.
    destruct (Hentry name' Hn') as (url' & Hin' & _).
    destruct (HF _ Hin') as (Hurl' & _ & _). simpl in *.
    rewrite Forall_forall in Hinj. apply (Hinj _ Hin'). simpl.
    rewrite <- Hurl, <- Hurl'. exact Heq.
  - intros Hnone. unfold get_animation_url.
    assert (animations !! name = None) as ->; [|reflexivity].
    apply not_elem_of_list_to_map. rewrite animations_keys.
    apply not_elem_of_list_to_map in Hnone. exact Hnone.
Qed.

Lemma get_animation_url_cases_witness :
  (animations !! "Mass" = Some (get_animation_url "Mass")
   ∧ get_animation_url "Mass" ≠ default_animation)
  ∧ get_animation_url "Money" = default_animation.
Proof.
  split.
  - destruct (get_animation_url_cases "Mass") as [H _].
    destruct (H ltac:(eexists; reflexivity)) as (H1 & H2 & _).
    split; assumption.
  - apply (get_animation_url_cases "Money"). reflexivity.
Defined.

(** ** Sequences of handler calls *)

(** X21: however many conversions are made, the history is the last ten
    of the records it held followed by the new ones, in order; so from a
    history of [k <= 10] records, [n] actions leave [min(10, k + n)]. *)
Theorem history_keeps_last_ten (acts : list Action) (st : Streamlit) :
  length (history st) ≤ 10 →
  history (foldl perform st acts)
  = slice_last 10 (history st ++ (action_entry <$> acts))
  ∧ length (history (foldl perform st acts))
    = (length (history st) + length acts) `min` 10.
Proof.
  intros H.
  pose proof (foldl_perform_history acts st H) as Heq.
  split; [exact Heq|].
  rewrite Heq, length_slice_last, length_app, length_fmap. reflexivity.
Qed.

Lemma history_keeps_last_ten_witness :
  history (foldl perform initial_st fifteen_actions)
  = slice_last 10 (history initial_st ++ (action_entry <$> fifteen_actions))
  ∧ length (history (foldl perform initial_st fifteen_actions))
    = (length (history initial_st) + length fifteen_actions) `min` 10.
Proof.
  apply (history_keeps_last_ten fifteen_actions initial_st).
  simpl. lia.
Defined.

Lemma well_selected_convertible (st : Streamlit) :
  well_selected st →
  convertible (from_unit (session_state st)) (to_unit (session_state st)).
Proof.
  intros (data & Hd & Hf & Ht).
  apply same_category_convertible.
  exists (current_category (session_state st)), data. auto.
Qed.

Lemma update_result_well_selected (now : string) (st : Streamlit) :
  well_selected st →
  well_selected (exec (update_result now) st)
  ∧ errors (exec (update_result now) st) = errors st.
Proof.
  intros Hw.
  pose proof (well_selected_convertible st Hw) as Hc.
  destruct Hw as (data & Hd & Hf & Ht).
  unfold exec. rewrite update_result_try_is_update_result.
  destruct (update_result_spec now st) as (st1 & Hconv & _ & ->).
  destruct (convertible_returns (input_value (session_state st)) _ _ st Hc)
    as [r Hr].
  rewrite Hr in Hconv. injection Hconv as _ <-.
  split; [|reflexivity].
  exists data. simpl. auto.
Qed.

Lemma initial_st_well_selected : well_selected initial_st.
Proof.
  exists {| units := ["meter"; "kilometer"; "centimeter"; "millimeter";
                      "mile"; "yard"; "foot"; "inch"];
            symbol := "📏"; color := "#FF5757" |}.
  split; [reflexivity|]. split; set_solver.
Defined.

(** X22: the handlers keep the two units inside the current category, and
    then no conversion fails.  The session that [app.py] starts with has
    its units in its category; from any such session [update_result],
    [swap_units], [toggle_theme] and [on_category_change] end in such a
    session again, return normally, and show no error. *)
Theorem handlers_keep_selection (now : string) (st : Streamlit) :
  well_selected st →
  well_selected initial_st
  ∧ (well_selected (exec (update_result now) st)
     ∧ errors (exec (update_result now) st) = errors st)
  ∧ (well_selected (exec (swap_units now) st)
     ∧ errors (exec (swap_units now) st) = errors st)
  ∧ (well_selected (exec toggle_theme st)
     ∧ errors (exec toggle_theme st) = errors st)
  ∧ ∃ st', on_category_change now st = (None, st')
           ∧ well_selected st' ∧ errors st' = errors st.
Proof.
  intros Hw. split; [exact initial_st_well_selected|].
  split; [apply update_result_well_selected; exact Hw|].
  destruct Hw as (data & Hd & Hf & Ht).
  split; [|split].
  - unfold exec. rewrite swap_units_spec.
    apply (update_result_well_selected now
             {| session_state :=
                  set_to_unit (from_unit (session_state st))
                    (set_from_unit (to_unit (session_state st))
                       (session_state st));
                errors := errors st |}).
    exists data. simpl. auto.
  - unfold exec. rewrite toggle_theme_spec. simpl.
    split; [|reflexivity]. exists data. simpl. auto.
  - destruct (on_category_change_known now st data Hd)
      as (first & second & st' & Heq & H0 & H1 & _ & Hfrom & Hto & _ & Hcat
          & Herr).
    exists st'. split; [exact Heq|]. split; [|exact Herr].
    exists data. rewrite Hcat, Hfrom, Hto.
    split; [exact Hd|].
    split; eapply list_elem_of_lookup_2; eassumption.
Qed.

Lemma handlers_keep_selection_witness :
  well_selected (exec (swap_units "2023-01-01 00:00:00") initial_st)
  ∧ errors (exec (swap_units "2023-01-01 00:00:00") initial_st) = [].
Proof.
  apply (handlers_keep_selection "2023-01-01 00:00:00" initial_st
           initial_st_well_selected).
Defined.

(** ** Records and successful conversions *)



(** The label of a category of the catalog is read back as its name. *)
Lemma selected_category_name_menu_option (name : string) (data : Category) :
  CONVERSION_CATEGORIES !! name = Some data →
  selected_category_name (menu_option name data) = Some name.
Proof.
  intros Hd%elem_of_list_to_map_2.
  pose proof categories_symbols_no_space as HF. rewrite Forall_forall in HF.
  pose proof (HF _ Hd) as Hs. simpl in Hs.
  unfold selected_category_name, menu_option.
  change (" " ++ name)%string with (String " " name).
  rewrite (str_split_1_app " " _ name Hs). reflexivity.
Qed.

(** The writes of [main] keep the two units inside the current category
    and show no error. *)
Lemma category_selected_well_selected (name : string) (data : Category)
    (now : string) (st : Streamlit) :
  CONVERSION_CATEGORIES !! name = Some data →
  well_selected st →
  well_selected (category_selected (menu_option name data) now st).2
  ∧ errors (category_selected (menu_option name data) now st).2 = errors st.
Proof.
  intros Hd Hw. unfold category_selected.
  rewrite (selected_category_name_menu_option name data Hd).
  destruct (String.eqb name (current_category (session_state st))); simpl;
    [split; [exact Hw | reflexivity]|].
  set (st1 := {| session_state := set_current_category name (session_state st);
                 errors := errors st |}).
  destruct (on_category_change_known now st1 data Hd)
    as (first & second & st' & Heq & H0 & H1 & _ & Hfrom & Hto & _ & Hcat
        & Herr).
  rewrite Heq. simpl. split; [|exact Herr].
  exists data. rewrite Hcat, Hfrom, Hto.
  split; [exact Hd|].
  split; eapply list_elem_of_lookup_2; eassumption.
Qed.

Lemma value_entered_well_selected (x : float) (now : string)
    (st : Streamlit) :
  well_selected st →
  well_selected (exec (value_entered x now) st)
  ∧ errors (exec (value_entered x now) st) = errors st.
Proof.
  intros (data & Hd & Hf & Ht).
  apply (update_result_well_selected now
           {| session_state := set_input_value x (session_state st);
              errors := errors st |}).
  exists data. simpl. auto.
Qed.

Lemma from_unit_selected_well_selected (selected now : string)
    (st : Streamlit) :
  well_selected st →
  well_selected (from_unit_selected selected now st).2
  ∧ errors (from_unit_selected selected now st).2 = errors st.
Proof.
  intros Hw. pose proof Hw as (data & Hd & Hf & Ht).
  unfold from_unit_selected. rewrite Hd. simpl.
  destruct (list_index selected (display_units (units data))) as [i|];
    [|split; [exact Hw | reflexivity]].
  destruct (units data !! i) as [u|] eqn:Hu;
    [|split; [exact Hw | reflexivity]].
  destruct (String.eqb u (from_unit (session_state st))); simpl;
    [split; [exact Hw | reflexivity]|].
  set (st1 := {| session_state := set_from_unit u (session_state st);
                 errors := errors st |}).
  assert (well_selected st1) as Hw1.
  { exists data. simpl. split; [exact Hd|]. split; [|exact Ht].
    eapply list_elem_of_lookup_2; exact Hu. }
  pose proof (update_result_well_selected now st1 Hw1) as H.
  unfold exec in H.
  destruct (update_result now st1) as [[?|?] ?]; exact H.
Qed.

Lemma to_unit_selected_well_selected (selected now : string)
    (st : Streamlit) :
  well_selected st →
  well_selected (to_unit_selected selected now st).2
  ∧ errors (to_unit_selected selected now st).2 = errors st.
Proof.
  intros Hw. pose proof Hw as (data & Hd & Hf & Ht).
  unfold to_unit_selected. rewrite Hd. simpl.
  destruct (list_index selected (display_units (units data))) as [i|];
    [|split; [exact Hw | reflexivity]].
  destruct (units data !! i) as [u|] eqn:Hu;
    [|split; [exact Hw | reflexivity]].
  destruct (String.eqb u (to_unit (session_state st))); simpl;
    [split; [exact Hw | reflexivity]|].
  set (st1 := {| session_state := set_to_unit u (session_state st);
                 errors := errors st |}).
  assert (well_selected st1) as Hw1.
  { exists data. simpl. split; [exact Hd|]. split; [exact Hf|].
    eapply list_elem_of_lookup_2; exact Hu. }
  pose proof (update_result_well_selected now st1 Hw1) as H.
  unfold exec in H.
  destruct (update_result now st1) as [[?|?] ?]; exact H.
Qed.

(** Every session of [app.py] has its two units in its current category,
    and no error box has been shown in it. *)
Lemma app_session_well_selected (st : Streamlit) :
  app_session st → well_selected st ∧ errors st = [].
Proof.
  induction 1 as [|name data now st Hd _ [IH IHe]|x now st _ [IH IHe]
                  |selected now st _ [IH IHe]|selected now st _ [IH IHe]
                  |now st _ [IH IHe]|st _ [IH IHe]|st _ [IH IHe]].
  - split; [exact initial_st_well_selected | reflexivity].
  - destruct (category_selected_well_selected name data now st Hd IH)
      as [Hw He].
    split; [exact Hw | congruence].
  - destruct (value_entered_well_selected x now st IH) as [Hw He].
    split; [exact Hw | congruence].
  - destruct (from_unit_selected_well_selected selected now st IH)
      as [Hw He].
    split; [exact Hw | congruence].
  - destruct (to_unit_selected_well_selected selected now st IH) as [Hw He].
    split; [exact Hw | congruence].
  - destruct IH as (data & Hd & Hf & Ht).
    unfold exec. rewrite swap_units_spec.
    destruct (update_result_well_selected now
                {| session_state :=
                     set_to_unit (from_unit (session_state st))
                       (set_from_unit (to_unit (session_state st))
                          (session_state st));
                   errors := errors st |}) as [Hw He].
    { exists data. simpl. auto. }
    split; [exact Hw | unfold exec in He; simpl in He; congruence].
  - destruct IH as (data & Hd & Hf & Ht).
    unfold exec. rewrite toggle_theme_spec. simpl.
    split; [exists data; simpl; auto | exact IHe].
  - destruct IH as (data & Hd & Hf & Ht).
    split; [exists data; simpl; auto | exact IHe].
Qed.


